(** * httpx client core: the redirect engine and the send pipeline

    A shallow embedding of [httpx/client.py] ([BaseClient]): the merge
    helpers, the authentication resolution of [send], the redirect loop of
    [send_handling_redirects] and the construction of redirect requests.

    Python values are modelled as follows.
    - [str] is [string], [bytes] is [list Byte.byte], [int] is [Z];
      [None] is the [None] of an [option].
    - Raising is a [result]: [Ok v] or [Raise e request], where [request] is
      the [request] attribute of the exception object.
    - The dispatcher and the other collaborators that live outside
      [client.py] are the fields of two interfaces ([Models] and
      [Dispatcher]); everything proved below holds for every instance.
    - The [while True] loop of the redirect engine is one function for the
      loop body ([hop]) iterated by [redirect_loop]. *)

From Stdlib Require Import ZArith List String Ascii Bool Lia.
Import ListNotations.

Local Open Scope string_scope.
Local Open Scope Z_scope.

(** ** Strings *)

(** [str.lower] on ASCII letters. *)
Definition ascii_lower (a : ascii) : ascii :=
  let n := nat_of_ascii a in
  if (Nat.leb 65 n && Nat.leb n 90)%bool then ascii_of_nat (n + 32) else a.

Fixpoint lower (s : string) : string :=
  match s with
  | EmptyString => EmptyString
  | String a s' => String (ascii_lower a) (lower s')
  end.

(** Python truthiness of a [str]. *)
Definition str_bool (s : string) : bool :=
  match s with EmptyString => false | _ => true end.

Definition bytes := list Byte.byte.

(** ** URL *)

(** Modelled from the spec: the URL value type of [httpx/models.py], which
    is not among the sources. A URL is the record of its normalized
    components; equality is identity of the normalized form, the origin is
    (scheme, host, port), and [copy_with] overrides one component. *)
Record URL : Type := mkURL {
  scheme : string;
  username : string;
  password : string;
  host : string;
  port : option Z;
  path : string;
  query : string;
  fragment : string
}.

Definition port_eqb (p q : option Z) : bool :=
  match p, q with
  | None, None => true
  | Some a, Some b => a =? b
  | _, _ => false
  end.

Definition URL_eqb (a b : URL) : bool :=
  (scheme a =? scheme b)%string && (username a =? username b)%string &&
  (password a =? password b)%string && (host a =? host b)%string &&
  port_eqb (port a) (port b) && (path a =? path b)%string &&
  (query a =? query b)%string && (fragment a =? fragment b)%string.

Definition Origin : Type := (string * string * option Z)%type.

(** Modelled from the spec: the origin of a URL is its (scheme, host,
    port), taken from the components as they are. *)
Definition origin (u : URL) : Origin := (scheme u, host u, port u).

Definition Origin_eqb (a b : Origin) : bool :=
  let '(s1, h1, p1) := a in
  let '(s2, h2, p2) := b in
  (s1 =? s2)%string && (h1 =? h2)%string && port_eqb p1 p2.

Definition copy_with_scheme (u : URL) (s : string) : URL :=
  mkURL s (username u) (password u) (host u) (port u) (path u) (query u)
    (fragment u).

Definition copy_with_fragment (u : URL) (f : string) : URL :=
  mkURL (scheme u) (username u) (password u) (host u) (port u) (path u)
    (query u) f.

(** [URLTypes]: a [str] or a [URL]. *)
Inductive URLTypes : Type :=
| URL_str (s : string)
| URL_obj (u : URL).

(** ** Headers *)

(** Modelled from the spec: the Headers container of [httpx/models.py],
    which is not among the sources. It is a case-insensitive,
    order-preserving multimap from name to value list, kept here as the list
    of its (name, value) items; names are compared after lower-casing.
    Deleting a name removes every item of that name and tolerates an absent
    name. Looking a name up gives its values joined by a comma, setting a
    name leaves one item of that name, and [update] follows the mapping
    protocol: [self[name] = other[name]] for every name of the argument. *)
Definition Headers : Type := list (string * string).

(** [HeaderTypes]: [None], or the items of a mapping, a sequence of pairs
    or a [Headers] object. *)
Definition HeaderTypes : Type := option (list (string * string)).

Definition name_eqb (a b : string) : bool := (lower a =? lower b)%string.

(** [Headers(h)]: a fresh container with the items of [h]. *)
Definition Headers_init (h : HeaderTypes) : Headers :=
  match h with
  | None => []
  | Some items => items
  end.

(** Truthiness of a [HeaderTypes] value: [None] and empty containers are
    false. *)
Definition HeaderTypes_bool (h : HeaderTypes) : bool :=
  match h with
  | None | Some [] => false
  | Some (_ :: _) => true
  end.

Definition Headers_bool (hs : Headers) : bool :=
  match hs with [] => false | _ :: _ => true end.

(** [key in headers]. *)
Definition Headers_contains (hs : Headers) (key : string) : bool :=
  existsb (fun kv => name_eqb (fst kv) key) hs.

(** The value list of [key], in order. *)
Definition Headers_get_list (hs : Headers) (key : string) : list string :=
  map snd (filter (fun kv => name_eqb (fst kv) key) hs).

(** [del headers[key]]. *)
Definition Headers_delitem (hs : Headers) (key : string) : Headers :=
  filter (fun kv => negb (name_eqb (fst kv) key)) hs.

(** The items that survive the deletion of Authorization and host. *)
Definition kept_cross_origin (kv : string * string) : bool :=
  negb (name_eqb (fst kv) "Authorization") && negb (name_eqb (fst kv) "host").

(** [headers[key] = value]: the first item of [key] is replaced, the other
    items of [key] are removed; a new name is appended. *)
Fixpoint Headers_setitem (hs : Headers) (key value : string) : Headers :=
  match hs with
  | [] => [(key, value)]
  | (k, v) :: tl =>
      if name_eqb k key
      then (key, value) :: Headers_delitem tl key
      else (k, v) :: Headers_setitem tl key value
  end.

(** The value that [headers[key]] gives for a name that is present: its
    values joined by a comma. *)
Definition Headers_joined (hs : Headers) (key : string) : string :=
  String.concat ", " (Headers_get_list hs key).

(** [headers.update(other)]:
    [for key in other: self[key] = other[key]]. *)
Definition Headers_update (hs : Headers) (other : HeaderTypes) : Headers :=
  let other := Headers_init other in
  fold_left
    (fun acc key => Headers_setitem acc key (Headers_joined other key))
    (map fst other) hs.

(** Equality of header sets under case-insensitive name equality: every
    name has the same value list in both. *)
Definition Headers_equiv (a b : Headers) : Prop :=
  forall key, Headers_get_list a key = Headers_get_list b key.

(** ** Cookies *)

(** Modelled from the spec: the cookie jar of [httpx/models.py], which is
    not among the sources, as a name-to-value store that can be updated
    from another jar or dictionary. *)
Definition Cookies : Type := list (string * string).

Definition CookieTypes : Type := option (list (string * string)).

Definition CookieTypes_bool (c : CookieTypes) : bool :=
  match c with
  | None | Some [] => false
  | Some (_ :: _) => true
  end.

Definition Cookies_bool (jar : Cookies) : bool :=
  match jar with [] => false | _ :: _ => true end.

Definition Cookies_set (jar : Cookies) (name value : string) : Cookies :=
  (filter (fun kv => negb (fst kv =? name)%string) jar ++ [(name, value)])%list.

Definition Cookies_update (jar : Cookies) (other : CookieTypes) : Cookies :=
  match other with
  | None => jar
  | Some items =>
      fold_left (fun acc kv => Cookies_set acc (fst kv) (snd kv)) items jar
  end.

(** ** Requests and responses *)

Module Request.

(** A prepared request: [content] is the body when it is held as bytes,
    [is_streaming] tells that the body is a lazy stream instead. *)
Record t : Type := mk {
  method : string;
  url : URL;
  headers : Headers;
  cookies : CookieTypes;
  is_streaming : bool;
  content : bytes
}.

End Request.

Module Response.

(** A response: [url] is the URL it was obtained for, [history] the
    responses before it on its redirect chain, [next] whether the deferred
    continuation [send_next] has been attached. *)
#[local] Unset Elimination Schemes.
Inductive t : Type := mk {
  status_code : Z;
  headers : Headers;
  url : URL;
  history : list t;
  next : bool
}.
#[local] Set Elimination Schemes.

Definition set_history (r : t) (h : list t) : t :=
  mk (status_code r) (headers r) (url r) h (next r).

Definition set_next (r : t) : t :=
  mk (status_code r) (headers r) (url r) (history r) true.

End Response.

(** [httpx/status_codes.py] is not among the sources; the three codes the
    client names have their standard values, which are the ones the spec
    gives. *)
Module codes.
Definition MOVED_PERMANENTLY : Z := 301.
Definition FOUND : Z := 302.
Definition SEE_OTHER : Z := 303.
End codes.

(** Modelled from the spec: [Response.is_redirect] is true iff the status is
    one of 301, 302, 303, 307, 308 and a Location header is present. *)
Definition is_redirect (r : Response.t) : bool :=
  let s := Response.status_code r in
  ((s =? 301) || (s =? 302) || (s =? 303) || (s =? 307) || (s =? 308)) &&
  Headers_contains (Response.headers r) "location".

(** ** Exceptions *)

Inductive exception : Type :=
| InvalidURL (message : string)
| TooManyRedirects (response : Response.t)
| RedirectLoop (response : Response.t)
| RedirectBodyUnavailable (response : Response.t)
| TransportError (name : string)
| IndexError
| KeyError (key : string)
| OtherException (name : string).

(** [isinstance(exc, HTTPError)]: the redirect errors, [InvalidURL] and the
    transport failures of the dispatcher are HTTPError subclasses; the
    built-in [IndexError] and [KeyError] and foreign exceptions are not. *)
Definition is_HTTPError (e : exception) : bool :=
  match e with
  | IndexError | KeyError _ | OtherException _ => false
  | _ => true
  end.

(** The outcome of a call: a value, or an exception together with its
    [request] attribute. *)
Inductive result (A : Type) : Type :=
| Ok (a : A)
| Raise (e : exception) (request : option Request.t).

Arguments Ok {A} a.
Arguments Raise {A} e request.

Definition bind {A B : Type} (m : result A) (f : A -> result B) : result B :=
  match m with
  | Ok a => f a
  | Raise e r => Raise e r
  end.

Notation "x <- m ;; k" := (bind m (fun x => k))
  (at level 61, m at next level, right associativity).

(** What the URL constructor and [join] give: a URL, or [InvalidURL]. *)
Inductive parsed : Type :=
| Parsed (u : URL)
| Invalid (message : string).

Definition URL_result (p : parsed) : result URL :=
  match p with
  | Parsed u => Ok u
  | Invalid message => Raise (InvalidURL message) None
  end.

(** What a dispatcher may raise: an HTTPError of the transport (a timeout, a
    connection or protocol error) or an exception foreign to the library,
    each with the [request] attribute it was given. *)
Inductive dispatch_failure : Type :=
| Transport (name : string) (request : option Request.t)
| Foreign (name : string) (request : option Request.t).

Definition raise_failure {A : Type} (f : dispatch_failure) : result A :=
  match f with
  | Transport name request => Raise (TransportError name) request
  | Foreign name request => Raise (OtherException name) request
  end.

(** [l[-1]]. *)
Definition last_item {A : Type} (l : list A) : option A :=
  match rev l with
  | [] => None
  | x :: _ => Some x
  end.

(** [headers[key]]: the values of [key] joined by a comma; [KeyError] when
    there is none. *)
Definition Headers_getitem (hs : Headers) (key : string) : result string :=
  match Headers_get_list hs key with
  | [] => Raise (KeyError key) None
  | values => Ok (String.concat ", " values)
  end.

(** ** Collaborators outside [client.py] *)

(** The URL operations, the HSTS preload query, the netrc lookup, Basic
    auth and the harvesting of cookies are used through their contracts
    only. *)
Class Models : Type := {
  (** [URL(location, allow_relative=True)] *)
  URL_init : string -> parsed;
  is_relative_url : URL -> bool;
  (** [base.join(relative_url)] *)
  URL_join : URL -> URLTypes -> parsed;
  authority : URL -> string;
  (** [hstspreload.in_hsts_preload(host)] *)
  in_hsts_preload : string -> bool;
  (** [get_netrc_login(authority)]: (login, account, password) or [None] *)
  get_netrc_login : string -> option (string * string * string);
  (** [HTTPBasicAuth(username, password)], applied to a request *)
  HTTPBasicAuth : string -> string -> Request.t -> Request.t;
  (** [jar.extract_cookies(response)] *)
  extract_cookies : Cookies -> Response.t -> Cookies
}.

(** The per-call transport arguments handed on to the dispatcher. *)
Record TransportArgs : Type := mkTransportArgs {
  verify : option string;
  cert : option string;
  timeout : option Z
}.

(** The dispatcher and the body handle of its responses act on a state of
    the outside world. *)
Class Dispatcher : Type := {
  World : Type;
  (** [dispatch.send(request, verify, cert, timeout)] *)
  dispatch_send :
    Request.t -> TransportArgs -> World ->
    (Response.t + dispatch_failure) * World;
  (** [response.read()]: [None] when the body was read *)
  response_read : Response.t -> World -> option exception * World;
  (** [response.close()] *)
  response_close : Response.t -> World -> World
}.

(** [AuthTypes]: a 2-tuple of credentials or a callable on requests. *)
Inductive AuthTypes : Type :=
| Auth_tuple (username password : string)
| Auth_callable (f : Request.t -> Request.t).

(** ** The client *)

Module BaseClient.

(** The attributes of [BaseClient] that the core reads; the dispatcher is
    the [Dispatcher] instance. [cookies] is the jar, which
    [send_handling_redirects] updates. *)
Record t : Type := mk {
  auth : option AuthTypes;
  headers : Headers;
  cookies : Cookies;
  max_redirects : Z;
  base_url : URL;
  trust_env : bool
}.

Definition set_cookies (c : t) (jar : Cookies) : t :=
  mk (auth c) (headers c) jar (max_redirects c) (base_url c) (trust_env c).

End BaseClient.

(** Modelled from the spec: the request constructor of [httpx/models.py],
    which is not among the sources, as [build_redirect_request] calls it,
    [AsyncRequest(method=..., url=..., headers=..., data=content,
    cookies=...)] with [content] a byte string. A prepared request holds
    the method, URL, headers, cookies and body it is made from, and a body
    given as bytes is not a stream. What else the constructor prepares
    (headers it may add) is not modelled, and nothing is proved about
    the headers of a request it makes. *)
Definition AsyncRequest (method : string) (url : URL) (headers : Headers)
  (data : bytes) (cookies : CookieTypes) : Request.t :=
  Request.mk method url headers cookies false data.

Section Client.

Context {M : Models} {D : Dispatcher}.

(** *** Merge helpers *)

Definition merge_url (c : BaseClient.t) (url : URLTypes) : result URL :=
  url <- URL_result (URL_join (BaseClient.base_url c) url) ;;
  Ok (if (scheme url =? "http")%string && in_hsts_preload (host url)
      then copy_with_scheme url "https"
      else url).

Definition merge_cookies (c : BaseClient.t) (cookies : CookieTypes)
  : CookieTypes :=
  if CookieTypes_bool cookies || Cookies_bool (BaseClient.cookies c)
  then Some (Cookies_update (BaseClient.cookies c) cookies)
  else cookies.

Definition merge_headers (c : BaseClient.t) (headers : HeaderTypes)
  : HeaderTypes :=
  if HeaderTypes_bool headers || Headers_bool (BaseClient.headers c)
  then
    let merged_headers := Headers_init (Some (BaseClient.headers c)) in
    Some (Headers_update merged_headers headers)
  else headers.

(** *** Redirect-request construction *)

Definition redirect_method (request : Request.t) (response : Response.t)
  : string :=
  let method := Request.method request in
  let method :=
    if (Response.status_code response =? codes.SEE_OTHER) &&
       negb (method =? "HEAD")%string
    then "GET" else method in
  let method :=
    if (Response.status_code response =? codes.FOUND) &&
       negb (method =? "HEAD")%string
    then "GET" else method in
  let method :=
    if (Response.status_code response =? codes.MOVED_PERMANENTLY) &&
       (method =? "POST")%string
    then "GET" else method in
  method.

Definition redirect_url (request : Request.t) (response : Response.t)
  : result URL :=
  location <- Headers_getitem (Response.headers response) "Location" ;;
  url <- URL_result (URL_init location) ;;
  url <- (if is_relative_url url
          then URL_result (URL_join (Request.url request) (URL_obj url))
          else Ok url) ;;
  Ok (if str_bool (fragment (Request.url request)) &&
         negb (str_bool (fragment url))
      then copy_with_fragment url (fragment (Request.url request))
      else url).

Definition redirect_headers (request : Request.t) (url : URL) : Headers :=
  let headers := Headers_init (Some (Request.headers request)) in
  if negb (Origin_eqb (origin url) (origin (Request.url request)))
  then Headers_delitem (Headers_delitem headers "Authorization") "host"
  else headers.

Definition redirect_content (request : Request.t) (method : string)
  (response : Response.t) : result bytes :=
  if negb (method =? Request.method request)%string && (method =? "GET")%string
  then Ok []
  else if Request.is_streaming request
  then Raise (RedirectBodyUnavailable response) None
  else Ok (Request.content request).

Definition build_redirect_request (c : BaseClient.t) (request : Request.t)
  (response : Response.t) : result Request.t :=
  let method := redirect_method request response in
  url <- redirect_url request response ;;
  let headers := redirect_headers request url in
  content <- redirect_content request method response ;;
  let cookies := merge_cookies c (Request.cookies request) in
  Ok (AsyncRequest method url headers content cookies).

(** *** The redirect engine *)

(** The variables of [send_handling_redirects] that change from hop to hop:
    the request, the history list, the client (its cookie jar) and the
    outside world. [sent] records the requests handed to the dispatcher, in
    order. *)
Record EngineState : Type := mkEngineState {
  st_client : BaseClient.t;
  st_request : Request.t;
  st_history : list Response.t;
  st_world : World;
  st_sent : list Request.t
}.

Inductive hop_result : Type :=
| Continue (st : EngineState)
| Break (r : result Response.t) (st : EngineState).

(** [raise Error(response=history[-1])]: reading [history[-1]] raises
    [IndexError] when the list is empty. *)
Definition raise_with_last (error : Response.t -> exception)
  (history : list Response.t) : result Response.t :=
  match last_item history with
  | Some response => Raise (error response) None
  | None => Raise IndexError None
  end.

(** One iteration of the [while True] loop: the two prechecks, the
    dispatch, the bookkeeping on the response, and the decision to go on.
    The response is closed when the loop goes on and when building the next
    request fails ([should_close_response]). *)
Definition hop (args : TransportArgs) (allow_redirects : bool)
  (st : EngineState) : hop_result :=
  let c := st_client st in
  let request := st_request st in
  let history := st_history st in
  if Z.of_nat (List.length history) >? BaseClient.max_redirects c then
    Break (raise_with_last TooManyRedirects history) st
  else if existsb (fun response => URL_eqb (Request.url request)
                                     (Response.url response)) history then
    Break (raise_with_last RedirectLoop history) st
  else
    let sent := (st_sent st ++ [request])%list in
    match dispatch_send request args (st_world st) with
    | (inr failure, w) =>
        Break (raise_failure failure) (mkEngineState c request history w sent)
    | (inl response, w) =>
        let response := Response.set_history response history in
        let c := BaseClient.set_cookies c
                   (extract_cookies (BaseClient.cookies c) response) in
        let history := (history ++ [response])%list in
        if allow_redirects && is_redirect response then
          match build_redirect_request c request response with
          | Ok request' =>
              Continue (mkEngineState c request' history
                          (response_close response w) sent)
          | Raise e r =>
              Break (Raise e r)
                (mkEngineState c request history (response_close response w)
                   sent)
          end
        else Break (Ok response) (mkEngineState c request history w sent)
    end.

(** The code after the loop: a terminal response that is itself a redirect
    gets the [next] continuation. The response object is also the last item
    of the history list. *)
Definition attach_next (r : result Response.t) (st : EngineState)
  : result Response.t * EngineState :=
  match r with
  | Ok response =>
      if is_redirect response then
        (Ok (Response.set_next response),
         mkEngineState (st_client st) (st_request st)
           (removelast (st_history st) ++ [Response.set_next response])%list
           (st_world st) (st_sent st))
      else (Ok response, st)
  | Raise e req => (Raise e req, st)
  end.

(** The loop, run for at most [fuel] iterations; [None] when they do not
    suffice. *)
Fixpoint redirect_loop (fuel : nat) (args : TransportArgs)
  (allow_redirects : bool) (st : EngineState)
  : option (result Response.t * EngineState) :=
  match fuel with
  | O => None
  | S fuel' =>
      match hop args allow_redirects st with
      | Continue st' => redirect_loop fuel' args allow_redirects st'
      | Break r st' => Some (attach_next r st')
      end
  end.

(** Every iteration that goes on makes the history one longer, and none
    goes on from a history longer than [max_redirects]. *)
Definition hops_bound (c : BaseClient.t) (history : list Response.t) : nat :=
  S (Z.to_nat (BaseClient.max_redirects c + 1 - Z.of_nat (List.length history))).

Definition engine_start (c : BaseClient.t) (request : Request.t)
  (history : option (list Response.t)) (w : World) : EngineState :=
  let history := match history with None => [] | Some h => h end in
  mkEngineState c request history w [].

Definition send_handling_redirects (c : BaseClient.t) (request : Request.t)
  (args : TransportArgs) (allow_redirects : bool)
  (history : option (list Response.t)) (w : World)
  : option (result Response.t * EngineState) :=
  let st := engine_start c request history w in
  redirect_loop (hops_bound c (st_history st)) args allow_redirects st.

(** The [send_next] closure attached to a terminal redirect: it captures
    the variables of the call that returned [response]. *)
Definition send_next (args : TransportArgs) (allow_redirects : bool)
  (st : EngineState) (response : Response.t)
  : option (result Response.t * EngineState) :=
  match build_redirect_request (st_client st) (st_request st) response with
  | Raise e r => Some (Raise e r, st)
  | Ok request =>
      let st' := mkEngineState (st_client st) request (st_history st)
                   (st_world st) (st_sent st) in
      redirect_loop (hops_bound (st_client st) (st_history st)) args
        allow_redirects st'
  end.

(** *** The send pipeline *)

(** Applying a resolved auth: a 2-tuple is promoted to Basic auth, a
    callable is called. *)
Definition apply_auth (auth : AuthTypes) (request : Request.t) : Request.t :=
  match auth with
  | Auth_tuple username password => HTTPBasicAuth username password request
  | Auth_callable f => f request
  end.

(** The first part of [send], up to [request = auth(request)]: the scheme
    check and the resolution and application of the auth. The message of
    [InvalidURL] is the source's without its quotation marks. *)
Definition send_auth (c : BaseClient.t) (request : Request.t)
  (auth : option AuthTypes) (trust_env : option bool) : result Request.t :=
  let auth := match auth with None => BaseClient.auth c | Some _ => auth end in
  let url := Request.url request in
  if negb ((scheme url =? "http")%string || (scheme url =? "https")%string)
  then Raise (InvalidURL "URL scheme must be http or https.") None
  else
    let auth :=
      match auth with
      | None =>
          if str_bool (username url) || str_bool (password url) then
            Some (Auth_callable (HTTPBasicAuth (username url) (password url)))
          else if match trust_env with
                  | None => BaseClient.trust_env c
                  | Some t => t
                  end then
            match get_netrc_login (authority url) with
            | Some (netrc_username, _, netrc_password) =>
                Some (Auth_callable
                        (HTTPBasicAuth netrc_username netrc_password))
            | None => None
            end
          else None
      | Some _ => auth
      end in
    match auth with
    | Some a => Ok (apply_auth a request)
    | None => Ok request
    end.

Definition set_world (st : EngineState) (w : World) : EngineState :=
  mkEngineState (st_client st) (st_request st) (st_history st) w (st_sent st).

Definition send (c : BaseClient.t) (request : Request.t) (stream : bool)
  (auth : option AuthTypes) (allow_redirects : bool) (args : TransportArgs)
  (trust_env : option bool) (w : World)
  : option (result Response.t * EngineState) :=
  match send_auth c request auth trust_env with
  | Raise e r => Some (Raise e r, engine_start c request None w)
  | Ok request =>
      match send_handling_redirects c request args allow_redirects None w with
      | None => None
      | Some (Raise e r, st) =>
          (* except HTTPError as exc: exc.request = request; raise *)
          if is_HTTPError e then Some (Raise e (Some request), st)
          else Some (Raise e r, st)
      | Some (Ok response, st) =>
          if negb stream then
            (* try: response.read()  finally: response.close() *)
            let (failure, w1) := response_read response (st_world st) in
            let st' := set_world st (response_close response w1) in
            match failure with
            | Some e => Some (Raise e None, st')
            | None => Some (Ok response, st')
            end
          else Some (Ok response, st)
      end
  end.

(** *** Runs of the engine *)

(** [reaches args allow st st']: the loop started in [st] comes to the top
    of an iteration, where the prechecks are made, in state [st']. *)
Inductive reaches (args : TransportArgs) (allow_redirects : bool)
  : EngineState -> EngineState -> Prop :=
| reaches_here (st : EngineState) : reaches args allow_redirects st st
| reaches_hop (st st' st'' : EngineState) :
    hop args allow_redirects st = Continue st' ->
    reaches args allow_redirects st' st'' ->
    reaches args allow_redirects st st''.

(** The state at the top of the iteration that [n] iterations lead to (or
    of the iteration that breaks, if there are fewer). *)
Fixpoint advance (n : nat) (args : TransportArgs) (allow_redirects : bool)
  (st : EngineState) : EngineState :=
  match n with
  | O => st
  | S n' =>
      match hop args allow_redirects st with
      | Continue st' => advance n' args allow_redirects st'
      | Break _ _ => st
      end
  end.

(** The errors that only the prechecks raise. *)
Definition is_precheck_error (e : exception) : bool :=
  match e with
  | TooManyRedirects _ | RedirectLoop _ | IndexError => true
  | _ => false
  end.

(** [request.url in (response.url for response in history)]. *)
Definition url_in_history (request : Request.t) (history : list Response.t)
  : Prop :=
  exists response,
    In response history /\ Response.url response = Request.url request.

End Client.

(** ** Test doubles *)

(** The collaborators used in the worked examples: a Location value names
    the host of an absolute https URL, the base URL is unset (so that join
    gives back its argument), the preload list holds [example.invalid],
    there is no netrc entry, and Basic auth sets the Authorization header. *)
Definition https_url (h p : string) : URL := mkURL "https" "" "" h None p "" "".

Definition set_headers (r : Request.t) (hs : Headers) : Request.t :=
  Request.mk (Request.method r) (Request.url r) hs (Request.cookies r)
    (Request.is_streaming r) (Request.content r).

Definition demo_models : Models := {|
  URL_init := fun location => Parsed (https_url location "/");
  is_relative_url := fun _ => false;
  URL_join := fun _ u =>
    match u with
    | URL_obj u => Parsed u
    | URL_str s => Parsed (https_url s "/")
    end;
  authority := host;
  in_hsts_preload := fun h => (h =? "example.invalid")%string;
  get_netrc_login := fun _ => None;
  HTTPBasicAuth := fun u p r =>
    set_headers r
      (Headers_setitem (Request.headers r) "Authorization"
         ("Basic " ++ u ++ ":" ++ p));
  extract_cookies := fun jar _ => jar
|}.

(** A dispatcher that answers from a script of (status, headers) pairs, one
    per request, and fails with a transport error when the script is used
    up; a response is for the URL of its request. *)
Definition scripted_send (request : Request.t) (args : TransportArgs)
  (script : list (Z * Headers))
  : (Response.t + dispatch_failure) * list (Z * Headers) :=
  match script with
  | [] => (inr (Transport "ConnectTimeout" None), [])
  | (status, hs) :: script' =>
      (inl (Response.mk status hs (Request.url request) [] false), script')
  end.

Definition scripted : Dispatcher := {|
  World := list (Z * Headers);
  dispatch_send := scripted_send;
  response_read := fun _ w => (None, w);
  response_close := fun _ w => w
|}.

Definition demo_client (max_redirects : Z) : BaseClient.t :=
  BaseClient.mk None [] [] max_redirects (mkURL "" "" "" "" None "" "" "") true.

Definition demo_request (method : string) (u : URL) : Request.t :=
  AsyncRequest method u [] [] None.

Definition demo_response (status : Z) (location : string) : Response.t :=
  Response.mk status [("location", location)] (https_url "a" "/") [] false.

Definition no_args : TransportArgs := mkTransportArgs None None None.

(** A client whose default auth is a pair of credentials. *)
Definition auth_client (username password : string) : BaseClient.t :=
  BaseClient.mk (Some (Auth_tuple username password)) [] [] 20
    (mkURL "" "" "" "" None "" "" "") true.

(** A client with default headers. *)
Definition headers_client (hs : Headers) : BaseClient.t :=
  BaseClient.mk None hs [] 20 (mkURL "" "" "" "" None "" "" "") true.

(** A request with a bearer token, a host header and one more header. *)
Definition token_request : Request.t :=
  AsyncRequest "GET" (https_url "a" "/1")
    [("Authorization", "Bearer T"); ("Host", "a"); ("Accept", "*/*")]
    [] None.

(** A redirect to the host named [location]. *)
Definition found (location : string) : Z * Headers :=
  (302, [("location", location)]).

Definition ok_200 : Z * Headers := (200, []).

(** ** The request surface *)

(** [history[i].history == history[:i]] for every index of a history list:
    each response carries the responses before it. *)
Definition chained (l : list Response.t) : Prop :=
  forall i r, nth_error l i = Some r -> Response.history r = firstn i l.

(** The request constructor of [httpx/models.py] with the body arguments
    of [request]; it is not among the sources and is used through its
    signature only. *)
Class RequestModels : Type := {
  AsyncRequestData : Type;
  RequestFiles : Type;
  Json : Type;
  QueryParamTypes : Type;
  (** [AsyncRequest(method, url, data=, files=, json=, params=, headers=,
      cookies=)] *)
  AsyncRequest_init :
    string -> URL -> option AsyncRequestData -> option RequestFiles ->
    option Json -> option QueryParamTypes -> HeaderTypes -> CookieTypes ->
    result Request.t
}.

(** An argument left out takes its default. *)
Definition or_default {A : Type} (given : option A) (default : A) : A :=
  match given with
  | Some a => a
  | None => default
  end.

Module AsyncClient.

(** What a call leaves behind: the client (its cookie jar), the outside
    world and the requests handed to the dispatcher. *)
Record Outcome {D : Dispatcher} : Type := mkOutcome {
  out_client : BaseClient.t;
  out_world : World;
  out_sent : list Request.t
}.

Definition outcome_of {M : Models} {D : Dispatcher} (st : EngineState)
  : Outcome :=
  mkOutcome D (st_client st) (st_world st) (st_sent st).

Definition request {M : Models} {D : Dispatcher} {R : RequestModels}
  (c : BaseClient.t) (method : string) (url : URLTypes)
  (data : option AsyncRequestData) (files : option RequestFiles)
  (json : option Json) (params : option QueryParamTypes)
  (headers : HeaderTypes) (cookies : CookieTypes) (stream : bool)
  (auth : option AuthTypes) (allow_redirects : bool) (args : TransportArgs)
  (trust_env : option bool) (w : World)
  : option (result Response.t * Outcome) :=
  match merge_url c url with
  | Raise e r => Some (Raise e r, mkOutcome D c w [])
  | Ok url =>
      let headers := merge_headers c headers in
      let cookies := merge_cookies c cookies in
      match
        AsyncRequest_init method url data files json params headers cookies
      with
      | Raise e r => Some (Raise e r, mkOutcome D c w [])
      | Ok request =>
          match
            send c request stream auth allow_redirects args trust_env w
          with
          | None => None
          | Some (r, st) => Some (r, outcome_of st)
          end
      end
  end.

Definition get {M : Models} {D : Dispatcher} {R : RequestModels}
  (c : BaseClient.t) (url : URLTypes) (params : option QueryParamTypes)
  (headers : HeaderTypes) (cookies : CookieTypes) (stream : option bool)
  (auth : option AuthTypes) (allow_redirects : option bool)
  (args : TransportArgs) (trust_env : option bool) (w : World) :=
  request c "GET" url None None None params headers cookies
    (or_default stream false) auth (or_default allow_redirects true) args
    trust_env w.

Definition options {M : Models} {D : Dispatcher} {R : RequestModels}
  (c : BaseClient.t) (url : URLTypes) (params : option QueryParamTypes)
  (headers : HeaderTypes) (cookies : CookieTypes) (stream : option bool)
  (auth : option AuthTypes) (allow_redirects : option bool)
  (args : TransportArgs) (trust_env : option bool) (w : World) :=
  request c "OPTIONS" url None None None params headers cookies
    (or_default stream false) auth (or_default allow_redirects true) args
    trust_env w.

(** [allow_redirects] defaults to [False] here, and only here. *)
Definition head {M : Models} {D : Dispatcher} {R : RequestModels}
  (c : BaseClient.t) (url : URLTypes) (params : option QueryParamTypes)
  (headers : HeaderTypes) (cookies : CookieTypes) (stream : option bool)
  (auth : option AuthTypes) (allow_redirects : option bool)
  (args : TransportArgs) (trust_env : option bool) (w : World) :=
  request c "HEAD" url None None None params headers cookies
    (or_default stream false) auth (or_default allow_redirects false) args
    trust_env w.

Definition post {M : Models} {D : Dispatcher} {R : RequestModels}
  (c : BaseClient.t) (url : URLTypes) (data : option AsyncRequestData)
  (files : option RequestFiles) (json : option Json)
  (params : option QueryParamTypes) (headers : HeaderTypes)
  (cookies : CookieTypes) (stream : option bool) (auth : option AuthTypes)
  (allow_redirects : option bool) (args : TransportArgs)
  (trust_env : option bool) (w : World) :=
  request c "POST" url data files json params headers cookies
    (or_default stream false) auth (or_default allow_redirects true) args
    trust_env w.

Definition put {M : Models} {D : Dispatcher} {R : RequestModels}
  (c : BaseClient.t) (url : URLTypes) (data : option AsyncRequestData)
  (files : option RequestFiles) (json : option Json)
  (params : option QueryParamTypes) (headers : HeaderTypes)
  (cookies : CookieTypes) (stream : option bool) (auth : option AuthTypes)
  (allow_redirects : option bool) (args : TransportArgs)
  (trust_env : option bool) (w : World) :=
  request c "PUT" url data files json params headers cookies
    (or_default stream false) auth (or_default allow_redirects true) args
    trust_env w.

Definition patch {M : Models} {D : Dispatcher} {R : RequestModels}
  (c : BaseClient.t) (url : URLTypes) (data : option AsyncRequestData)
  (files : option RequestFiles) (json : option Json)
  (params : option QueryParamTypes) (headers : HeaderTypes)
  (cookies : CookieTypes) (stream : option bool) (auth : option AuthTypes)
  (allow_redirects : option bool) (args : TransportArgs)
  (trust_env : option bool) (w : World) :=
  request c "PATCH" url data files json params headers cookies
    (or_default stream false) auth (or_default allow_redirects true) args
    trust_env w.

Definition delete {M : Models} {D : Dispatcher} {R : RequestModels}
  (c : BaseClient.t) (url : URLTypes) (data : option AsyncRequestData)
  (files : option RequestFiles) (json : option Json)
  (params : option QueryParamTypes) (headers : HeaderTypes)
  (cookies : CookieTypes) (stream : option bool) (auth : option AuthTypes)
  (allow_redirects : option bool) (args : TransportArgs)
  (trust_env : option bool) (w : World) :=
  request c "DELETE" url data files json params headers cookies
    (or_default stream false) auth (or_default allow_redirects true) args
    trust_env w.

End AsyncClient.

(** A request constructor for the worked examples: no body arguments, the
    fields as given. *)
Definition demo_request_models : RequestModels := {|
  AsyncRequestData := bytes;
  RequestFiles := unit;
  Json := unit;
  QueryParamTypes := unit;
  AsyncRequest_init := fun method url data _ _ _ headers cookies =>
    Ok (AsyncRequest method url (Headers_init headers)
          (or_default data []) cookies)
|}.

(** * Properties *)

(** ** Equality tests *)

Lemma port_eqb_eq (p q : option Z) : port_eqb p q = true <-> p = q.
Proof.
  destruct p as [a|], q as [b|]; simpl; split; intro H;
    try discriminate; try reflexivity.
  - apply Z.eqb_eq in H. now subst.
  - injection H as ->. apply Z.eqb_refl.
Qed.

Lemma Origin_eqb_eq (a b : Origin) : Origin_eqb a b = true <-> a = b.
Proof.
  destruct a as [[s1 h1] p1], b as [[s2 h2] p2]. simpl.
  rewrite !andb_true_iff, !String.eqb_eq, port_eqb_eq.
  split.
  - intros [[-> ->] ->]. reflexivity.
  - intros H. injection H as -> -> ->. auto.
Qed.

Lemma Origin_eqb_neq (a b : Origin) : Origin_eqb a b = false <-> a <> b.
Proof.
  rewrite <- Origin_eqb_eq. destruct (Origin_eqb a b); split; intro H;
    try discriminate; try reflexivity; try (now elim H).
Qed.

Lemma URL_eqb_eq (a b : URL) : URL_eqb a b = true <-> a = b.
Proof.
  destruct a, b. unfold URL_eqb. simpl.
  rewrite !andb_true_iff, !String.eqb_eq, port_eqb_eq.
  split.
  - intros [[[[[[[-> ->] ->] ->] ->] ->] ->] ->]. reflexivity.
  - intros H. injection H as -> -> -> -> -> -> -> ->. repeat split.
Qed.

Lemma string_eqb_neq (a b : string) : (a =? b)%string = false <-> a <> b.
Proof. apply String.eqb_neq. Qed.

Lemma str_bool_true (s : string) : str_bool s = true <-> s <> "".
Proof. destruct s; simpl; split; intro H; congruence. Qed.

Lemma name_eqb_refl (a : string) : name_eqb a a = true.
Proof. apply String.eqb_refl. Qed.

Lemma name_eqb_sym (a b : string) : name_eqb a b = name_eqb b a.
Proof. apply String.eqb_sym. Qed.

(** Names that compare equal look up the same items. *)
Lemma name_eqb_trans_l (a b k : string) :
  name_eqb a b = true -> name_eqb k a = name_eqb k b.
Proof.
  unfold name_eqb. intros H. apply String.eqb_eq in H. now rewrite H.
Qed.

(** ** Lists of header items *)

Lemma filter_twice {A : Type} (f g : A -> bool) (l : list A) :
  filter f (filter g l) = filter (fun x => g x && f x) l.
Proof.
  induction l as [|x l IH]; simpl; [reflexivity|].
  destruct (g x); simpl; [destruct (f x)|]; now rewrite IH.
Qed.

Lemma filter_all {A : Type} (f : A -> bool) (l : list A) :
  existsb (fun x => negb (f x)) l = false -> filter f l = l.
Proof.
  induction l as [|x l IH]; simpl; [reflexivity|].
  intros H. apply orb_false_iff in H as [Hx Hl].
  apply negb_false_iff in Hx. rewrite Hx, IH; auto.
Qed.

Lemma filter_narrow {A : Type} (f g : A -> bool) (l : list A) :
  (forall x, f x = true -> g x = true) ->
  filter f (filter g l) = filter f l.
Proof.
  intros Hfg. induction l as [|x l IH]; simpl; [reflexivity|].
  destruct (f x) eqn:Hf.
  - rewrite (Hfg x Hf). simpl. now rewrite Hf, IH.
  - destruct (g x); simpl; [rewrite Hf|]; exact IH.
Qed.

(** ** The header container *)

Lemma Headers_get_list_app (a b : Headers) (k : string) :
  Headers_get_list (a ++ b)%list k =
  (Headers_get_list a k ++ Headers_get_list b k)%list.
Proof. unfold Headers_get_list. now rewrite filter_app, map_app. Qed.

Lemma Headers_get_list_cons (k0 v0 : string) (tl : Headers) (k : string) :
  Headers_get_list ((k0, v0) :: tl) k =
  if name_eqb k0 k then v0 :: Headers_get_list tl k
  else Headers_get_list tl k.
Proof. unfold Headers_get_list. simpl. now destruct (name_eqb k0 k). Qed.

(** Names that compare equal have the same value list. *)
Lemma Headers_get_list_name (hs : Headers) (a b : string) :
  name_eqb a b = true -> Headers_get_list hs a = Headers_get_list hs b.
Proof.
  intros H. unfold Headers_get_list. f_equal. apply filter_ext.
  intros [k v]. simpl. apply name_eqb_trans_l. exact H.
Qed.

Lemma name_eqb_other (k0 key k : string) :
  name_eqb k0 key = true -> name_eqb k0 k = name_eqb key k.
Proof.
  intros H. rewrite (name_eqb_sym k0 k), (name_eqb_sym key k).
  apply name_eqb_trans_l. exact H.
Qed.

Lemma Headers_get_list_delitem (hs : Headers) (key k : string) :
  Headers_get_list (Headers_delitem hs key) k =
  if name_eqb key k then [] else Headers_get_list hs k.
Proof.
  induction hs as [|[k0 v0] tl IH]; simpl.
  - now destruct (name_eqb key k).
  - destruct (name_eqb k0 key) eqn:E0; simpl.
    + rewrite IH, Headers_get_list_cons, (name_eqb_other _ _ k E0).
      now destruct (name_eqb key k).
    + rewrite !Headers_get_list_cons, IH.
      destruct (name_eqb key k) eqn:Ek; [|reflexivity].
      rewrite name_eqb_sym in Ek.
      rewrite (name_eqb_sym k0 k), (name_eqb_other _ _ k0 Ek).
      rewrite name_eqb_sym, E0. reflexivity.
Qed.

(** Setting a name gives it one value and changes no other name. *)
Lemma Headers_get_list_setitem (hs : Headers) (key value k : string) :
  Headers_get_list (Headers_setitem hs key value) k =
  if name_eqb key k then [value] else Headers_get_list hs k.
Proof.
  induction hs as [|[k0 v0] tl IH]; simpl.
  - rewrite Headers_get_list_cons. now destruct (name_eqb key k).
  - destruct (name_eqb k0 key) eqn:E0.
    + rewrite !Headers_get_list_cons, Headers_get_list_delitem,
        (name_eqb_other _ _ k E0).
      now destruct (name_eqb key k).
    + rewrite !Headers_get_list_cons, IH.
      destruct (name_eqb key k) eqn:Ek; [|reflexivity].
      rewrite name_eqb_sym in Ek.
      rewrite (name_eqb_sym k0 k), (name_eqb_other _ _ k0 Ek).
      rewrite name_eqb_sym, E0. reflexivity.
Qed.

Lemma Headers_contains_names (hs : Headers) (k : string) :
  existsb (fun n => name_eqb n k) (map fst hs) = Headers_contains hs k.
Proof.
  unfold Headers_contains. induction hs as [|kv tl IH]; simpl; congruence.
Qed.

Lemma Headers_get_list_absent (hs : Headers) (k : string) :
  Headers_contains hs k = false <-> Headers_get_list hs k = [].
Proof.
  unfold Headers_contains. induction hs as [|[k0 v0] tl IH].
  - simpl. split; reflexivity.
  - rewrite Headers_get_list_cons. simpl.
    destruct (name_eqb k0 k); simpl; [split; discriminate|exact IH].
Qed.

Lemma Headers_joined_name (hs : Headers) (a b : string) :
  name_eqb a b = true -> Headers_joined hs a = Headers_joined hs b.
Proof.
  intros H. unfold Headers_joined. f_equal.
  apply Headers_get_list_name. exact H.
Qed.

(** After an update a name that the argument has is left with one item,
    the argument's values of that name joined by a comma; any other name
    keeps the items it had. *)
Lemma Headers_get_list_update (hs : Headers) (other : HeaderTypes)
  (k : string) :
  Headers_get_list (Headers_update hs other) k =
  if Headers_contains (Headers_init other) k
  then [Headers_joined (Headers_init other) k]
  else Headers_get_list hs k.
Proof.
  unfold Headers_update. cbv zeta.
  rewrite <- Headers_contains_names.
  generalize (map fst (Headers_init other)) as names.
  intros names. revert hs.
  induction names as [|n names IH]; intros hs; simpl; [reflexivity|].
  rewrite IH, Headers_get_list_setitem.
  destruct (existsb _ names); [now rewrite orb_true_r|].
  rewrite orb_false_r.
  destruct (name_eqb n k) eqn:En; [|reflexivity].
  f_equal. apply Headers_joined_name. exact En.
Qed.

Lemma Headers_getitem_list (hs : Headers) (key : string) :
  Headers_getitem hs key =
  match Headers_get_list hs key with
  | [] => Raise (KeyError key) None
  | _ :: _ => Ok (Headers_joined hs key)
  end.
Proof.
  unfold Headers_getitem, Headers_joined.
  now destruct (Headers_get_list hs key).
Qed.

Lemma concat_one (sep x : string) : String.concat sep [x] = x.
Proof. reflexivity. Qed.

(** A second update with the result of the first leaves every lookup as it
    was. *)
Lemma Headers_update_absorb_getitem (hs : Headers) (other : HeaderTypes)
  (k : string) :
  Headers_getitem (Headers_update hs (Some (Headers_update hs other))) k =
  Headers_getitem (Headers_update hs other) k.
Proof.
  rewrite !Headers_getitem_list.
  unfold Headers_joined at 1.
  rewrite (Headers_get_list_update hs (Some _)). simpl Headers_init.
  destruct (Headers_contains (Headers_update hs other) k) eqn:Ec.
  - rewrite concat_one.
    destruct (Headers_get_list (Headers_update hs other) k) eqn:El;
      [|reflexivity].
    apply Headers_get_list_absent in El. congruence.
  - apply Headers_get_list_absent in Ec. rewrite Ec.
    rewrite Headers_get_list_update in Ec.
    destruct (Headers_contains (Headers_init other) k); [discriminate|].
    rewrite Ec. reflexivity.
Qed.

(** When no name has more than one item to begin with, it leaves every
    value list as it was. *)
Lemma Headers_update_absorb (hs : Headers) (other : HeaderTypes) :
  (forall key, (List.length (Headers_get_list hs key) <= 1)%nat) ->
  Headers_equiv (Headers_update hs (Some (Headers_update hs other)))
    (Headers_update hs other).
Proof.
  intros Hone k.
  rewrite (Headers_get_list_update hs (Some _)). simpl Headers_init.
  destruct (Headers_contains (Headers_update hs other) k) eqn:Ec.
  - unfold Headers_joined.
    assert (Hne : Headers_get_list (Headers_update hs other) k <> []).
    { intros E. apply Headers_get_list_absent in E. congruence. }
    rewrite Headers_get_list_update in Hne |- *.
    destruct (Headers_contains (Headers_init other) k); [reflexivity|].
    specialize (Hone k).
    destruct (Headers_get_list hs k) as [|v [|v' tl]];
      [now elim Hne|reflexivity|simpl in Hone; lia].
  - apply Headers_get_list_absent in Ec. rewrite Ec.
    rewrite Headers_get_list_update in Ec.
    destruct (Headers_contains (Headers_init other) k); [discriminate|].
    exact Ec.
Qed.

Section Properties.

Context {M : Models} {D : Dispatcher}.

(** ** Redirect-request construction *)

(** C3. [redirect_method] gives GET for a 303 when the prior method is not
    HEAD, GET for a 302 when the prior method is not HEAD, GET for a 301
    when the prior method is POST, and the prior method in every other
    case. *)
Theorem redirect_method_cases (request : Request.t) (response : Response.t) :
  let m := Request.method request in
  let s := Response.status_code response in
  (s = 303 -> m <> "HEAD" -> redirect_method request response = "GET") /\
  (s = 302 -> m <> "HEAD" -> redirect_method request response = "GET") /\
  (s = 301 -> m = "POST" -> redirect_method request response = "GET") /\
  (~ (s = 303 /\ m <> "HEAD") -> ~ (s = 302 /\ m <> "HEAD") ->
   ~ (s = 301 /\ m = "POST") -> redirect_method request response = m).
Proof.
  intros m s. unfold redirect_method.
  change (Request.method request) with m.
  change (Response.status_code response) with s. clearbody m s.
  unfold codes.SEE_OTHER, codes.FOUND, codes.MOVED_PERMANENTLY.
  repeat split.
  - intros -> Hm. apply string_eqb_neq in Hm. simpl. rewrite Hm. reflexivity.
  - intros -> Hm. apply string_eqb_neq in Hm. simpl. rewrite Hm. reflexivity.
  - intros -> ->. reflexivity.
  - intros H303 H302 H301.
    destruct (s =? 303) eqn:E303.
    + apply Z.eqb_eq in E303.
      destruct (m =? "HEAD")%string eqn:Em.
      * apply String.eqb_eq in Em. rewrite E303, Em. reflexivity.
      * apply string_eqb_neq in Em. elim H303. auto.
    + simpl. destruct (s =? 302) eqn:E302.
      * apply Z.eqb_eq in E302.
        destruct (m =? "HEAD")%string eqn:Em.
        -- apply String.eqb_eq in Em. rewrite E302, Em. reflexivity.
        -- apply string_eqb_neq in Em. elim H302. auto.
      * simpl. destruct (s =? 301) eqn:E301; [|reflexivity].
        apply Z.eqb_eq in E301.
        destruct (m =? "POST")%string eqn:Em; [|reflexivity].
        apply String.eqb_eq in Em. elim H301. auto.
Qed.

(** C4. [redirect_content] gives the empty body when the new method
    differs from the prior one and is GET; otherwise it raises
    RedirectBodyUnavailable, carrying the redirect response, exactly when
    the prior request is streaming, and otherwise gives the prior
    request's bytes. *)
Theorem redirect_content_cases (request : Request.t) (method : string)
  (response : Response.t) :
  let to_get := method <> Request.method request /\ method = "GET" in
  (to_get -> redirect_content request method response = Ok []) /\
  (~ to_get -> Request.is_streaming request = true ->
   redirect_content request method response =
   Raise (RedirectBodyUnavailable response) None) /\
  (~ to_get -> Request.is_streaming request = false ->
   redirect_content request method response = Ok (Request.content request)) /\
  ((exists e r, redirect_content request method response = Raise e r) <->
   ~ to_get /\ Request.is_streaming request = true).
Proof.
  intros to_get. unfold redirect_content.
  assert (Hcond : negb (method =? Request.method request)%string &&
                  (method =? "GET")%string = true <-> to_get).
  { unfold to_get.
    rewrite andb_true_iff, negb_true_iff, string_eqb_neq, String.eqb_eq.
    reflexivity. }
  destruct (negb (method =? Request.method request)%string &&
            (method =? "GET")%string) eqn:E.
  - assert (Hg : to_get) by (apply Hcond; reflexivity).
    split; [|split; [|split]].
    + intros _. reflexivity.
    + intros Hn. now elim Hn.
    + intros Hn. now elim Hn.
    + split.
      * intros (e & r & He). discriminate.
      * intros [Hn _]. now elim Hn.
  - assert (Hg : ~ to_get) by (intro Hg; apply Hcond in Hg; discriminate).
    split; [|split; [|split]].
    + intros H. now elim Hg.
    + intros _ ->. reflexivity.
    + intros _ ->. reflexivity.
    + split.
      * intros (e & r & He). split; [exact Hg|].
        destruct (Request.is_streaming request); [reflexivity|discriminate].
      * intros [_ ->]. eauto.
Qed.

Lemma redirect_headers_cross_origin (request : Request.t) (url : URL) :
  origin url <> origin (Request.url request) ->
  redirect_headers request url =
  filter kept_cross_origin (Request.headers request).
Proof.
  intros Ho. unfold redirect_headers.
  apply Origin_eqb_neq in Ho. rewrite Ho. simpl.
  unfold Headers_delitem. apply filter_twice.
Qed.

(** C2. The headers of a redirect request are those of the prior request;
    when the origin of the new URL differs from the origin of the prior
    URL, exactly the items named Authorization or host, compared without
    regard to case, are removed, the others stay as and where they are, and
    nothing changes when neither name is present; when the origins are
    equal, all headers stay, Authorization included. *)
Theorem redirect_headers_strips_cross_origin (request : Request.t) (url : URL) :
  let hs := Request.headers request in
  (origin url <> origin (Request.url request) ->
   redirect_headers request url = filter kept_cross_origin hs /\
   (forall k v, In (k, v) (redirect_headers request url) <->
      In (k, v) hs /\ lower k <> "authorization" /\ lower k <> "host") /\
   (forall key, lower key <> "authorization" -> lower key <> "host" ->
      Headers_get_list (redirect_headers request url) key =
      Headers_get_list hs key) /\
   (Headers_contains hs "Authorization" = false ->
    Headers_contains hs "host" = false ->
    redirect_headers request url = hs)) /\
  (origin url = origin (Request.url request) ->
   redirect_headers request url = hs).
Proof.
  intros hs. split.
  - intros Ho. rewrite (redirect_headers_cross_origin _ _ Ho). fold hs.
    assert (Hkept : forall k v, kept_cross_origin (k, v) = true <->
              lower k <> "authorization" /\ lower k <> "host").
    { intros k v. unfold kept_cross_origin, name_eqb. simpl.
      rewrite andb_true_iff, !negb_true_iff, !string_eqb_neq. reflexivity. }
    split; [reflexivity|]. split; [|split].
    + intros k v. rewrite filter_In, Hkept. reflexivity.
    + intros key Ha Hh. unfold Headers_get_list. f_equal.
      apply filter_narrow. intros [k v] Hk. simpl in Hk.
      apply Hkept. unfold name_eqb in Hk. apply String.eqb_eq in Hk.
      rewrite Hk. auto.
    + intros Ha Hh. apply filter_all.
      unfold Headers_contains in Ha, Hh.
      induction hs as [|kv tl IH]; simpl in *; [reflexivity|].
      apply orb_false_iff in Ha as [Ha1 Ha2].
      apply orb_false_iff in Hh as [Hh1 Hh2].
      unfold kept_cross_origin at 1. rewrite Ha1, Hh1. simpl. auto.
  - intros Ho. unfold redirect_headers.
    apply Origin_eqb_eq in Ho. rewrite Ho. reflexivity.
Qed.

(** ** Merge helpers *)

(** C6, as the code has it. [merge_url] is the join of the base URL with
    its argument, with the scheme replaced by https when the joined scheme
    is http and the host is preloaded; the upgrade changes no other
    component. A merged URL with a preloaded host never has scheme http,
    and has scheme https whenever the joined scheme is http or https; a
    joined URL of any other scheme is returned as it is. *)
Theorem merge_url_upgrade (c : BaseClient.t) (u : URLTypes) :
  (forall message, URL_join (BaseClient.base_url c) u = Invalid message ->
     merge_url c u = Raise (InvalidURL message) None) /\
  (forall j, URL_join (BaseClient.base_url c) u = Parsed j ->
     exists m, merge_url c u = Ok m /\
       (scheme j = "http" -> in_hsts_preload (host j) = true ->
        m = copy_with_scheme j "https") /\
       (~ (scheme j = "http" /\ in_hsts_preload (host j) = true) -> m = j) /\
       (username m, password m, host m, port m, path m, query m, fragment m) =
       (username j, password j, host j, port j, path j, query j, fragment j) /\
       (in_hsts_preload (host m) = true -> scheme m <> "http") /\
       (in_hsts_preload (host m) = true ->
        scheme j = "http" \/ scheme j = "https" -> scheme m = "https")).
Proof.
  unfold merge_url. split.
  - intros message ->. reflexivity.
  - intros j ->. simpl.
    destruct (scheme j =? "http")%string eqn:Es; simpl.
    + apply String.eqb_eq in Es.
      destruct (in_hsts_preload (host j)) eqn:Ep.
      * eexists. split; [reflexivity|]. repeat split; simpl; auto.
        -- intros Hn. elim Hn. auto.
        -- discriminate.
      * eexists. split; [reflexivity|]. repeat split; auto.
        -- intros _ Hp. congruence.
        -- intros Hp. congruence.
        -- intros Hp. congruence.
    + apply string_eqb_neq in Es.
      eexists. split; [reflexivity|]. repeat split; auto.
      * intros Hs. now elim Es.
      * intros _ [Hs|Hs]; [now elim Es|exact Hs].
Qed.

(** C9, as the code has it. Merging the result of a merge against the
    same defaults leaves every lookup as it was: for every name, compared
    without regard to case, [headers[name]] (the values joined by a comma,
    or KeyError) is the same after the second merge as after the first,
    and the second merge gives [None] only where the first did. The items
    themselves stay the same, name by name, when no name occurs more than
    once in the client's default headers. *)
Theorem merge_headers_idempotent (c : BaseClient.t) (h : HeaderTypes) :
  let once := Headers_init (merge_headers c h) in
  let twice := Headers_init (merge_headers c (merge_headers c h)) in
  (forall key, Headers_getitem twice key = Headers_getitem once key) /\
  ((forall key,
      (List.length (Headers_get_list (BaseClient.headers c) key) <= 1)%nat) ->
   Headers_equiv twice once) /\
  (merge_headers c (merge_headers c h) = None <-> merge_headers c h = None).
Proof.
  cbv zeta.
  destruct (merge_headers c h) as [m|] eqn:E1.
  - unfold merge_headers in E1 |- *. cbv zeta in E1 |- *.
    destruct (HeaderTypes_bool h || Headers_bool (BaseClient.headers c)) eqn:E.
    + injection E1 as <-.
      match goal with |- context [if ?b then _ else _] => destruct b end.
      * split; [|split; [|split; discriminate]].
        -- intros key. simpl Headers_init.
           apply Headers_update_absorb_getitem.
        -- intros Hone. simpl Headers_init.
           apply Headers_update_absorb. exact Hone.
      * split; [reflexivity|]. split; [intros _ k; reflexivity|].
        split; discriminate.
    + subst h. rewrite E. split; [reflexivity|].
      split; [intros _ k; reflexivity|split; discriminate].
  - unfold merge_headers in E1 |- *.
    destruct (HeaderTypes_bool h || Headers_bool (BaseClient.headers c)) eqn:E;
      [discriminate|].
    subst h. rewrite E. split; [reflexivity|].
    split; [intros _ k; reflexivity|reflexivity].
Qed.

(** ** The send pipeline *)

Lemma send_auth_scheme_ok (c : BaseClient.t) (request : Request.t)
  (auth : option AuthTypes) (trust_env : option bool) :
  scheme (Request.url request) = "http" \/
  scheme (Request.url request) = "https" ->
  negb ((scheme (Request.url request) =? "http")%string ||
        (scheme (Request.url request) =? "https")%string) = false.
Proof. intros [-> | ->]; reflexivity. Qed.

(** C8, as the code has it. For a request with scheme http or https the
    auth that [send] applies is: the per-call auth if given; else the
    default auth of the client if it has one; else Basic auth from the
    user-info of the URL when a username or password is present; else,
    when the effective trust-env flag (the per-call one if given, the
    client's otherwise) is true and the netrc lookup on the authority
    succeeds, Basic auth from it; else none, and the request is left as it
    is. A 2-tuple is promoted to Basic auth. *)
Theorem send_auth_order (c : BaseClient.t) (request : Request.t)
  (auth : option AuthTypes) (trust_env : option bool) :
  let url := Request.url request in
  let trust := match trust_env with
               | None => BaseClient.trust_env c
               | Some t => t
               end in
  scheme url = "http" \/ scheme url = "https" ->
  (forall a, auth = Some a ->
     send_auth c request auth trust_env = Ok (apply_auth a request)) /\
  (forall a, auth = None -> BaseClient.auth c = Some a ->
     send_auth c request auth trust_env = Ok (apply_auth a request)) /\
  (auth = None -> BaseClient.auth c = None ->
   username url <> "" \/ password url <> "" ->
   send_auth c request auth trust_env =
   Ok (HTTPBasicAuth (username url) (password url) request)) /\
  (forall login account pass,
     auth = None -> BaseClient.auth c = None ->
     username url = "" -> password url = "" -> trust = true ->
     get_netrc_login (authority url) = Some (login, account, pass) ->
     send_auth c request auth trust_env =
     Ok (HTTPBasicAuth login pass request)) /\
  (auth = None -> BaseClient.auth c = None ->
   username url = "" -> password url = "" ->
   trust = false \/ get_netrc_login (authority url) = None ->
   send_auth c request auth trust_env = Ok request) /\
  (forall u p, apply_auth (Auth_tuple u p) request = HTTPBasicAuth u p request).
Proof.
  intros url trust Hs.
  pose proof (send_auth_scheme_ok c request auth trust_env Hs) as Hok.
  unfold send_auth. fold url in Hok |- *. rewrite Hok. fold trust.
  clearbody url trust.
  split; [|split; [|split; [|split; [|split]]]].
  - intros a ->. reflexivity.
  - intros a -> ->. reflexivity.
  - intros -> -> Hu.
    assert (E : str_bool (username url) || str_bool (password url) = true).
    { apply orb_true_iff. rewrite !str_bool_true. exact Hu. }
    rewrite E. reflexivity.
  - intros login account pass -> -> -> -> -> ->. reflexivity.
  - intros -> -> -> -> [-> | Hn]; simpl; [reflexivity|].
    rewrite Hn. destruct trust; reflexivity.
  - reflexivity.
Qed.

(** C7, as the code has it. When the redirect engine fails with an
    HTTPError, [send] re-raises the same error with the request it handed
    to the engine attached: the user's request after the resolved auth has
    been applied. That is the user's request itself when no auth is
    resolved. A failure that is not an HTTPError passes unchanged. *)
Theorem send_attaches_sent_request (c : BaseClient.t) (request : Request.t)
  (stream : bool) (auth : option AuthTypes) (allow_redirects : bool)
  (args : TransportArgs) (trust_env : option bool) (w : World)
  (request' : Request.t) (e : exception) (r : option Request.t)
  (st : EngineState) :
  send_auth c request auth trust_env = Ok request' ->
  send_handling_redirects c request' args allow_redirects None w =
  Some (Raise e r, st) ->
  (is_HTTPError e = true ->
   send c request stream auth allow_redirects args trust_env w =
   Some (Raise e (Some request'), st)) /\
  (is_HTTPError e = false ->
   send c request stream auth allow_redirects args trust_env w =
   Some (Raise e r, st)).
Proof.
  intros Ha He. unfold send. rewrite Ha, He.
  split; intros ->; reflexivity.
Qed.

(** ** The redirect engine *)

Lemma last_item_app {A : Type} (l : list A) (x : A) :
  last_item (l ++ [x]) = Some x.
Proof. unfold last_item. rewrite rev_app_distr. reflexivity. Qed.

Lemma last_item_nonempty {A : Type} (l : list A) :
  l <> [] -> exists x, last_item l = Some x.
Proof.
  intros Hl. destruct (exists_last Hl) as (l' & x & ->).
  exists x. apply last_item_app.
Qed.

Lemma url_in_history_iff (request : Request.t) (history : list Response.t) :
  existsb (fun response => URL_eqb (Request.url request)
                             (Response.url response)) history = true <->
  url_in_history request history.
Proof.
  unfold url_in_history. rewrite existsb_exists.
  split; intros (response & Hin & Hu); exists response; split; auto.
  - apply URL_eqb_eq in Hu. auto.
  - apply URL_eqb_eq. auto.
Qed.

Lemma build_redirect_request_error (c : BaseClient.t) (request : Request.t)
  (response : Response.t) (e : exception) (r : option Request.t) :
  build_redirect_request c request response = Raise e r ->
  is_precheck_error e = false.
Proof.
  unfold build_redirect_request, redirect_url, redirect_content,
    Headers_getitem.
  destruct (Headers_get_list (Response.headers response) "Location");
    simpl; [intros [= <- _]; reflexivity|].
  destruct (URL_init _); simpl; [|intros [= <- _]; reflexivity].
  destruct (is_relative_url u); simpl.
  - destruct (URL_join _ _); simpl; [|intros [= <- _]; reflexivity].
    destruct (_ && _); [discriminate|].
    destruct (Request.is_streaming request); simpl;
      [intros [= <- _]; reflexivity|discriminate].
  - destruct (_ && _); [discriminate|].
    destruct (Request.is_streaming request); simpl;
      [intros [= <- _]; reflexivity|discriminate].
Qed.

Lemma raise_failure_error (f : dispatch_failure) (e : exception)
  (r : option Request.t) :
  @raise_failure Response.t f = Raise e r -> is_precheck_error e = false.
Proof. destruct f; simpl; intros [= <- _]; reflexivity. Qed.

(** The first precheck. *)
Lemma hop_too_many (args : TransportArgs) (allow_redirects : bool)
  (st : EngineState) :
  Z.of_nat (List.length (st_history st)) > BaseClient.max_redirects (st_client st) ->
  hop args allow_redirects st =
  Break (raise_with_last TooManyRedirects (st_history st)) st.
Proof.
  intros H. unfold hop.
  destruct (Z.gtb_spec (Z.of_nat (List.length (st_history st)))
              (BaseClient.max_redirects (st_client st))); [reflexivity|lia].
Qed.

(** The second precheck. *)
Lemma hop_loop (args : TransportArgs) (allow_redirects : bool)
  (st : EngineState) :
  Z.of_nat (List.length (st_history st)) <= BaseClient.max_redirects (st_client st) ->
  url_in_history (st_request st) (st_history st) ->
  hop args allow_redirects st =
  Break (raise_with_last RedirectLoop (st_history st)) st.
Proof.
  intros H Hu. unfold hop.
  destruct (Z.gtb_spec (Z.of_nat (List.length (st_history st)))
              (BaseClient.max_redirects (st_client st))); [lia|].
  apply url_in_history_iff in Hu. rewrite Hu. reflexivity.
Qed.

(** An iteration that goes on passed both prechecks, sent its request and
    put the response at the end of the history. *)
Lemma hop_Continue_inv (args : TransportArgs) (allow_redirects : bool)
  (st st' : EngineState) :
  hop args allow_redirects st = Continue st' ->
  Z.of_nat (List.length (st_history st)) <= BaseClient.max_redirects (st_client st) /\
  ~ url_in_history (st_request st) (st_history st) /\
  (exists response, st_history st' = (st_history st ++ [response])%list /\
                    Response.history response = st_history st) /\
  BaseClient.max_redirects (st_client st') =
  BaseClient.max_redirects (st_client st) /\
  st_sent st' = (st_sent st ++ [st_request st])%list.
Proof.
  unfold hop.
  destruct (Z.gtb_spec (Z.of_nat (List.length (st_history st)))
              (BaseClient.max_redirects (st_client st))); [discriminate|].
  destruct (existsb _ (st_history st)) eqn:Eu; [discriminate|].
  destruct (dispatch_send _ _ _) as [[response|failure] w]; [|discriminate].
  destruct (allow_redirects && _); [|discriminate].
  destruct (build_redirect_request _ _ _); [|discriminate].
  intros [= <-]. simpl. repeat split; auto.
  - intros Hu. apply url_in_history_iff in Hu. congruence.
  - eexists. split; reflexivity.
Qed.

(** An iteration that ends the loop: by the first precheck, by the second,
    or after the request was sent, with a response or with an error that
    is not one of the prechecks'. *)
Lemma hop_Break_inv (args : TransportArgs) (allow_redirects : bool)
  (st st' : EngineState) (r : result Response.t) :
  hop args allow_redirects st = Break r st' ->
  (Z.of_nat (List.length (st_history st)) > BaseClient.max_redirects (st_client st) /\
   r = raise_with_last TooManyRedirects (st_history st) /\ st' = st) \/
  (Z.of_nat (List.length (st_history st)) <= BaseClient.max_redirects (st_client st) /\
   url_in_history (st_request st) (st_history st) /\
   r = raise_with_last RedirectLoop (st_history st) /\ st' = st) \/
  (Z.of_nat (List.length (st_history st)) <= BaseClient.max_redirects (st_client st) /\
   ~ url_in_history (st_request st) (st_history st) /\
   st_sent st' = (st_sent st ++ [st_request st])%list /\
   ((exists response, r = Ok response /\
       Response.history response = st_history st /\
       st_history st' = (st_history st ++ [response])%list) \/
    (exists e q, r = Raise e q /\ is_precheck_error e = false))).
Proof.
  unfold hop.
  destruct (Z.gtb_spec (Z.of_nat (List.length (st_history st)))
              (BaseClient.max_redirects (st_client st))) as [Hgt|Hle].
  { intros [= <- <-]. left. repeat split; auto. lia. }
  destruct (existsb _ (st_history st)) eqn:Eu.
  { intros [= <- <-]. right. left. repeat split; auto.
    apply url_in_history_iff. exact Eu. }
  assert (Hnot : ~ url_in_history (st_request st) (st_history st)).
  { intros Hu. apply url_in_history_iff in Hu. congruence. }
  right. right.
  destruct (dispatch_send _ _ _) as [[response|failure] w].
  - destruct (allow_redirects && _).
    + destruct (build_redirect_request _ _ _) as [request'|e q] eqn:Eb;
        [discriminate|].
      injection H as <- <-. simpl. repeat split; auto.
      right. exists e, q. split; [reflexivity|].
      eapply build_redirect_request_error. exact Eb.
    + injection H as <- <-. simpl. repeat split; auto.
      left. eexists. repeat split.
  - injection H as <- <-. simpl. repeat split; auto.
    right. destruct failure; simpl; eauto.
Qed.

(** *** Termination *)

Lemma hops_bound_Continue (args : TransportArgs) (allow_redirects : bool)
  (st st' : EngineState) :
  hop args allow_redirects st = Continue st' ->
  hops_bound (st_client st) (st_history st) =
  S (hops_bound (st_client st') (st_history st')).
Proof.
  intros H. apply hop_Continue_inv in H
    as (Hle & _ & (response & Hh & _) & Hm & _).
  unfold hops_bound. rewrite Hh, Hm, length_app. simpl. f_equal. lia.
Qed.

(** The loop ends within [hops_bound] iterations. *)
Lemma redirect_loop_total (args : TransportArgs) (allow_redirects : bool)
  (fuel : nat) :
  forall st, (hops_bound (st_client st) (st_history st) <= fuel)%nat ->
  exists out, redirect_loop fuel args allow_redirects st = Some out.
Proof.
  induction fuel as [|fuel IH]; intros st Hb.
  - unfold hops_bound in Hb. lia.
  - simpl. destruct (hop args allow_redirects st) as [st'|r st'] eqn:Eh.
    + apply IH. rewrite (hops_bound_Continue _ _ _ _ Eh) in Hb. lia.
    + eauto.
Qed.

(** A run ends where the loop breaks. *)
Lemma redirect_loop_run (args : TransportArgs) (allow_redirects : bool)
  (fuel : nat) :
  forall st out, redirect_loop fuel args allow_redirects st = Some out ->
  exists st1 r st2,
    reaches args allow_redirects st st1 /\
    hop args allow_redirects st1 = Break r st2 /\
    out = attach_next r st2.
Proof.
  induction fuel as [|fuel IH]; intros st out; simpl; [discriminate|].
  destruct (hop args allow_redirects st) as [st'|r st'] eqn:Eh.
  - intros H. apply IH in H as (st1 & r & st2 & Hr & Hb & Ho).
    exists st1, r, st2. split; [|auto]. eapply reaches_hop; eauto.
  - intros [= <-]. exists st, r, st'. split; [constructor|auto].
Qed.

(** Conversely, the break of a reachable iteration is the result. *)
Lemma reaches_run (args : TransportArgs) (allow_redirects : bool)
  (st st1 : EngineState) :
  reaches args allow_redirects st st1 ->
  forall r st2 fuel,
    hop args allow_redirects st1 = Break r st2 ->
    (hops_bound (st_client st) (st_history st) <= fuel)%nat ->
    redirect_loop fuel args allow_redirects st = Some (attach_next r st2).
Proof.
  induction 1 as [st|st st' st'' Hh Hr IH]; intros r st2 fuel Hb Hf.
  - destruct fuel as [|fuel]; [unfold hops_bound in Hf; lia|].
    simpl. rewrite Hb. reflexivity.
  - destruct fuel as [|fuel]; [unfold hops_bound in Hf; lia|].
    simpl. rewrite Hh. apply IH; [exact Hb|].
    rewrite (hops_bound_Continue _ _ _ _ Hh) in Hf. lia.
Qed.

(** [send_handling_redirects] returns or raises: the iteration budget of
    the model always suffices. *)
Lemma send_handling_redirects_total (c : BaseClient.t) (request : Request.t)
  (args : TransportArgs) (allow_redirects : bool)
  (history : option (list Response.t)) (w : World) :
  exists out,
    send_handling_redirects c request args allow_redirects history w =
    Some out.
Proof.
  unfold send_handling_redirects. apply redirect_loop_total. apply Nat.le_refl.
Qed.

Lemma reaches_advance (args : TransportArgs) (allow_redirects : bool)
  (n : nat) :
  forall st, reaches args allow_redirects st (advance n args allow_redirects st).
Proof.
  induction n as [|n IH]; intros st; simpl; [constructor|].
  destruct (hop args allow_redirects st) as [st'|r st'] eqn:Eh;
    [|constructor].
  eapply reaches_hop; [exact Eh|apply IH].
Qed.

(** *** Invariants of a run *)

Lemma reaches_invariant (args : TransportArgs) (allow_redirects : bool)
  (st st1 : EngineState) :
  reaches args allow_redirects st st1 ->
  BaseClient.max_redirects (st_client st1) =
  BaseClient.max_redirects (st_client st) /\
  (exists added, st_history st1 = (st_history st ++ added)%list /\
     List.length (st_sent st1) =
     (List.length (st_sent st) + List.length added)%nat /\
     (st = st1 \/
      added <> [] /\
      Z.of_nat (List.length (st_history st1)) <=
      BaseClient.max_redirects (st_client st) + 1)).
Proof.
  induction 1 as [st|st st' st'' Hh Hr IH].
  - split; [reflexivity|].
    exists []. rewrite app_nil_r. simpl. repeat split; auto.
  - destruct IH as (Hm & added & Ha & Hs & Hlen).
    pose proof (hop_Continue_inv _ _ _ _ Hh)
      as (Hle & _ & (response & Hh' & _) & Hm' & Hs').
    split; [congruence|].
    exists (response :: added). split; [|split].
    + rewrite Ha, Hh', <- app_assoc. reflexivity.
    + rewrite Hs, Hs', length_app. simpl. lia.
    + right. split; [discriminate|].
      destruct Hlen as [<- | [_ Hlen]].
      * rewrite Hh', length_app. simpl. lia.
      * rewrite <- Hm'. exact Hlen.
Qed.

Lemma attach_next_Raise (r : result Response.t) (st2 st : EngineState)
  (e : exception) (q : option Request.t) :
  attach_next r st2 = (Raise e q, st) -> r = Raise e q /\ st2 = st.
Proof.
  unfold attach_next. destruct r as [response|e' q'].
  - destruct (is_redirect response); discriminate.
  - intros [= -> -> ->]. auto.
Qed.

Lemma attach_next_Ok (r : result Response.t) (st2 st : EngineState)
  (response : Response.t) :
  attach_next r st2 = (Ok response, st) ->
  exists response0, r = Ok response0 /\
    Response.history response = Response.history response0 /\
    Response.status_code response = Response.status_code response0.
Proof.
  unfold attach_next. destruct r as [response0|e q]; [|discriminate].
  destruct (is_redirect response0); intros [= <- _]; eauto.
Qed.

Lemma attach_next_sent (r : result Response.t) (st2 : EngineState) :
  st_sent (snd (attach_next r st2)) = st_sent st2.
Proof.
  unfold attach_next. destruct r as [response|e q]; [|reflexivity].
  destruct (is_redirect response); reflexivity.
Qed.

(** The engine raises TooManyRedirects with a response exactly when an
    iteration starts with a history that is longer than [max_redirects] and
    has that response as its last item. *)
Lemma too_many_redirects_iff (c : BaseClient.t) (request : Request.t)
  (args : TransportArgs) (allow_redirects : bool)
  (history : option (list Response.t)) (w : World)
  (response : Response.t) (q : option Request.t) (st : EngineState) :
  send_handling_redirects c request args allow_redirects history w =
  Some (Raise (TooManyRedirects response) q, st) <->
  reaches args allow_redirects (engine_start c request history w) st /\
  Z.of_nat (List.length (st_history st)) > BaseClient.max_redirects c /\
  last_item (st_history st) = Some response /\ q = None.
Proof.
  unfold send_handling_redirects. cbv zeta. split.
  - intros H. apply redirect_loop_run in H as (st1 & r & st2 & Hr & Hb & Ho).
    symmetry in Ho. apply attach_next_Raise in Ho as [-> <-].
    pose proof (reaches_invariant _ _ _ _ Hr) as [Hm _]. simpl in Hm.
    apply hop_Break_inv in Hb
      as [(Hgt & He & <-) | [(_ & _ & He & _) | (_ & _ & _ & [Hok | Hex])]].
    + unfold raise_with_last in He.
      destruct (last_item (st_history st2)); [|discriminate].
      injection He as -> ->. rewrite Hm in Hgt. auto.
    + unfold raise_with_last in He.
      destruct (last_item (st_history st1)); discriminate.
    + destruct Hok as (response0 & He & _). discriminate.
    + destruct Hex as (e & q' & [= <- _] & Hp). discriminate.
  - intros (Hr & Hgt & Hl & ->).
    pose proof (reaches_invariant _ _ _ _ Hr) as [Hm _]. simpl in Hm.
    rewrite <- Hm in Hgt.
    pose proof (hop_too_many args allow_redirects st Hgt) as Hb.
    unfold raise_with_last in Hb. rewrite Hl in Hb.
    rewrite (reaches_run _ _ _ _ Hr _ _ _ Hb); [reflexivity|].
    apply Nat.le_refl.
Qed.

(** The history attached to a returned response is no longer than
    [max_redirects]. *)
Lemma returned_history_bound (c : BaseClient.t) (request : Request.t)
  (args : TransportArgs) (allow_redirects : bool)
  (history : option (list Response.t)) (w : World)
  (response : Response.t) (st : EngineState) :
  send_handling_redirects c request args allow_redirects history w =
  Some (Ok response, st) ->
  Z.of_nat (List.length (Response.history response)) <= BaseClient.max_redirects c.
Proof.
  unfold send_handling_redirects. cbv zeta. intros H.
  apply redirect_loop_run in H as (st1 & r & st2 & Hr & Hb & Ho).
  symmetry in Ho. apply attach_next_Ok in Ho as (response0 & -> & Hh & _).
  pose proof (reaches_invariant _ _ _ _ Hr) as [Hm _]. simpl in Hm.
  apply hop_Break_inv in Hb
    as [(_ & He & _) | [(_ & _ & He & _) | (Hle & _ & _ & [Hok | Hex])]].
  - unfold raise_with_last in He.
    destruct (last_item (st_history st1)); discriminate.
  - unfold raise_with_last in He.
    destruct (last_item (st_history st1)); discriminate.
  - destruct Hok as (response1 & [= <-] & Hh1 & _).
    rewrite Hh, Hh1, <- Hm. exact Hle.
  - destruct Hex as (e & q & He & _). discriminate.
Qed.

(** A call hands at most [max_redirects + 1] requests to the dispatcher,
    less the length of the history it was entered with. *)
Lemma dispatch_count_bound (c : BaseClient.t) (request : Request.t)
  (args : TransportArgs) (allow_redirects : bool)
  (history : option (list Response.t)) (w : World)
  (r : result Response.t) (st : EngineState) :
  send_handling_redirects c request args allow_redirects history w =
  Some (r, st) ->
  Z.of_nat (List.length (st_sent st)) <=
  Z.max 0 (BaseClient.max_redirects c + 1 -
           Z.of_nat (List.length (st_history
                                    (engine_start c request history w)))).
Proof.
  unfold send_handling_redirects. cbv zeta. intros H.
  apply redirect_loop_run in H as (st1 & r0 & st2 & Hr & Hb & Ho).
  pose proof (attach_next_sent r0 st2) as Hs. rewrite <- Ho in Hs.
  simpl in Hs. rewrite Hs.
  pose proof (reaches_invariant _ _ _ _ Hr)
    as (Hm & added & Ha & Hlen & Hcase).
  simpl in Hm, Hlen.
  assert (Hadd : Z.of_nat (List.length (st_history st1)) =
                 Z.of_nat (List.length (st_history
                                          (engine_start c request history w)))
                 + Z.of_nat (List.length added)).
  { rewrite Ha, length_app. lia. }
  apply hop_Break_inv in Hb
    as [(_ & _ & ->) | [(_ & _ & _ & ->) | (Hle & _ & Hsent & _)]].
  - destruct Hcase as [<- | [_ Hle]]; simpl in *; lia.
  - destruct Hcase as [<- | [_ Hle]]; simpl in *; lia.
  - rewrite Hsent, length_app. rewrite Hm in Hle. simpl in *. lia.
Qed.

Lemma hop_empty_history_negative_limit (args : TransportArgs)
  (allow_redirects : bool) (st : EngineState) :
  st_history st = [] -> BaseClient.max_redirects (st_client st) < 0 ->
  hop args allow_redirects st = Break (Raise IndexError None) st.
Proof.
  intros Hh Hm. rewrite hop_too_many; rewrite Hh; [reflexivity|simpl; lia].
Qed.

(** C1, at the input where the code departs from it. With a negative
    [max_redirects] and no history the first precheck finds the history
    longer than [max_redirects], and the engine raises IndexError, from
    reading [history[-1]], instead of TooManyRedirects; the dispatcher is
    not called. *)
Theorem too_many_redirects_lost_on_empty_history (c : BaseClient.t)
  (request : Request.t) (args : TransportArgs) (allow_redirects : bool)
  (w : World) :
  BaseClient.max_redirects c < 0 ->
  let st0 := engine_start c request None w in
  Z.of_nat (List.length (st_history st0)) > BaseClient.max_redirects c /\
  send_handling_redirects c request args allow_redirects None w =
  Some (Raise IndexError None, st0) /\
  st_sent st0 = [].
Proof.
  intros Hm st0. split; [simpl; lia|]. split; [|reflexivity].
  unfold send_handling_redirects. cbv zeta. fold st0.
  unfold hops_bound. simpl redirect_loop.
  rewrite hop_empty_history_negative_limit; auto.
Qed.

(** C5, as the code has it. At every iteration whose history is not longer
    than [max_redirects], if the URL of the current request is the URL of
    a response in the history, the engine raises RedirectLoop with the last
    response of the history, and the iteration leaves the state as it
    was: the dispatcher is not called. *)
Theorem redirect_loop_detected (c : BaseClient.t) (request : Request.t)
  (args : TransportArgs) (allow_redirects : bool)
  (history : option (list Response.t)) (w : World) (st : EngineState) :
  reaches args allow_redirects (engine_start c request history w) st ->
  Z.of_nat (List.length (st_history st)) <= BaseClient.max_redirects c ->
  url_in_history (st_request st) (st_history st) ->
  exists last,
    last_item (st_history st) = Some last /\
    hop args allow_redirects st = Break (Raise (RedirectLoop last) None) st /\
    send_handling_redirects c request args allow_redirects history w =
    Some (Raise (RedirectLoop last) None, st).
Proof.
  intros Hr Hle Hu.
  pose proof (reaches_invariant _ _ _ _ Hr) as [Hm _]. simpl in Hm.
  rewrite <- Hm in Hle.
  assert (Hne : st_history st <> []).
  { destruct Hu as (response & Hin & _). intros E. rewrite E in Hin.
    exact Hin. }
  destruct (last_item_nonempty _ Hne) as [last Hl].
  pose proof (hop_loop args allow_redirects st Hle Hu) as Hb.
  unfold raise_with_last in Hb. rewrite Hl in Hb.
  exists last. split; [exact Hl|]. split; [exact Hb|].
  unfold send_handling_redirects. cbv zeta.
  rewrite (reaches_run _ _ _ _ Hr _ _ _ Hb); [reflexivity|apply Nat.le_refl].
Qed.

Lemma last_item_Some {A : Type} (l : list A) (x : A) :
  last_item l = Some x -> exists init, l = (init ++ [x])%list.
Proof.
  unfold last_item. destruct (rev l) as [|y t] eqn:E; [discriminate|].
  intros [= ->]. exists (rev t).
  rewrite <- (rev_involutive l), E. reflexivity.
Qed.

Lemma raise_with_last_app (error : Response.t -> exception)
  (init : list Response.t) (last : Response.t) :
  raise_with_last error (init ++ [last]) = Raise (error last) None.
Proof. unfold raise_with_last. rewrite last_item_app. reflexivity. Qed.

(** C10. Whenever a precheck fires, the error is built from
    [history[-1]]: at an iteration whose history ends in a response, the
    call raises TooManyRedirects with that response when the history is
    longer than [max_redirects], and RedirectLoop with that response when
    it is not and the URL of the request is in the history; and the
    response that either error carries is the last item of the history
    the call leaves. For a client with [max_redirects >= 0] and a call
    entered without history, neither precheck fires in the first
    iteration, the history has a last item wherever one fires, and the
    call never fails with IndexError. With [max_redirects < 0] the first
    iteration takes the TooManyRedirects branch with an empty history,
    where the access fails. *)
Theorem history_last_access (c : BaseClient.t) (request : Request.t)
  (args : TransportArgs) (allow_redirects : bool)
  (history : option (list Response.t)) (w : World) :
  let st0 := engine_start c request history w in
  let run := send_handling_redirects c request args allow_redirects history w in
  let fires st :=
    Z.of_nat (List.length (st_history st)) > BaseClient.max_redirects c \/
    url_in_history (st_request st) (st_history st) in
  (forall st init last,
     reaches args allow_redirects st0 st ->
     st_history st = (init ++ [last])%list ->
     (Z.of_nat (List.length (st_history st)) > BaseClient.max_redirects c ->
      run = Some (Raise (TooManyRedirects last) None, st)) /\
     (Z.of_nat (List.length (st_history st)) <= BaseClient.max_redirects c ->
      url_in_history (st_request st) (st_history st) ->
      run = Some (Raise (RedirectLoop last) None, st))) /\
  (forall x q st,
     run = Some (Raise (TooManyRedirects x) q, st) \/
     run = Some (Raise (RedirectLoop x) q, st) ->
     fires st /\ exists init, st_history st = (init ++ [x])%list) /\
  (history = None \/ history = Some [] ->
   0 <= BaseClient.max_redirects c ->
   ~ fires st0 /\
   (forall st, reaches args allow_redirects st0 st -> fires st ->
      exists init last, st_history st = (init ++ [last])%list) /\
   (forall r q st, run = Some (r, st) -> r <> Raise IndexError q)) /\
  (history = None \/ history = Some [] ->
   BaseClient.max_redirects c < 0 ->
   Z.of_nat (List.length (st_history st0)) > BaseClient.max_redirects c /\
   st_history st0 = [] /\
   run = Some (Raise IndexError None, st0)).
Proof.
  intros st0 run fires.
  assert (Hst0 : history = None \/ history = Some [] -> st_history st0 = []).
  { intros [-> | ->]; reflexivity. }
  split; [|split; [|split]].
  - intros st init last Hr Hh.
    pose proof (reaches_invariant _ _ _ _ Hr) as [Hm _]. simpl in Hm.
    split.
    + intros Hgt. rewrite <- Hm in Hgt.
      pose proof (hop_too_many args allow_redirects st Hgt) as Hb.
      rewrite Hh, raise_with_last_app in Hb.
      unfold run, send_handling_redirects. cbv zeta.
      rewrite (reaches_run _ _ _ _ Hr _ _ _ Hb); [reflexivity|].
      apply Nat.le_refl.
    + intros Hle Hu. rewrite <- Hm in Hle.
      pose proof (hop_loop args allow_redirects st Hle Hu) as Hb.
      rewrite Hh, raise_with_last_app in Hb.
      unfold run, send_handling_redirects. cbv zeta.
      rewrite (reaches_run _ _ _ _ Hr _ _ _ Hb); [reflexivity|].
      apply Nat.le_refl.
  - intros x q st Hrun.
    assert (Hcase : exists e, run = Some (Raise e q, st) /\
                      (e = TooManyRedirects x \/ e = RedirectLoop x)).
    { destruct Hrun as [H|H]; eauto. }
    destruct Hcase as (e & H & He).
    unfold run, send_handling_redirects in H. cbv zeta in H.
    apply redirect_loop_run in H as (st1 & r0 & st2 & Hr & Hb & Ho).
    symmetry in Ho. apply attach_next_Raise in Ho as [-> <-].
    pose proof (reaches_invariant _ _ _ _ Hr) as [Hm _]. simpl in Hm.
    apply hop_Break_inv in Hb
      as [(Hgt & Hb & <-) | [(_ & Hu & Hb & <-) | (_ & _ & _ & [Hok | Hex])]].
    + unfold raise_with_last in Hb.
      destruct (last_item (st_history st2)) as [y|] eqn:El;
        [|destruct He; congruence].
      split; [left; rewrite <- Hm; exact Hgt|].
      apply last_item_Some.
      destruct He as [-> | ->]; [|discriminate].
      injection Hb as ->. exact El.
    + unfold raise_with_last in Hb.
      destruct (last_item (st_history st2)) as [y|] eqn:El;
        [|destruct He; congruence].
      split; [right; exact Hu|].
      apply last_item_Some.
      destruct He as [-> | ->]; [discriminate|].
      injection Hb as ->. exact El.
    + destruct Hok as (response & Hb & _). discriminate.
    + destruct Hex as (e' & q' & [= <- _] & Hp).
      destruct He as [-> | ->]; discriminate.
  - intros Hh Hm. specialize (Hst0 Hh).
    assert (Hn0 : ~ fires st0).
    { unfold fires, url_in_history. rewrite Hst0. simpl.
      intros [Hgt | (response & [] & _)]. lia. }
    assert (Hlast : forall st, reaches args allow_redirects st0 st ->
              fires st ->
              exists init last, st_history st = (init ++ [last])%list).
    { intros st Hr Hf.
      pose proof (reaches_invariant _ _ _ _ Hr)
        as (_ & added & Ha & _ & [<- | [Hne _]]).
      - now elim Hn0.
      - destruct (exists_last Hne) as (init & last & ->).
        exists init, last. rewrite Ha, Hst0. reflexivity. }
    split; [exact Hn0|]. split; [exact Hlast|].
    intros r q st Hrun ->.
    unfold run, send_handling_redirects in Hrun. cbv zeta in Hrun.
    apply redirect_loop_run in Hrun as (st1 & r0 & st2 & Hr & Hb & Ho).
    symmetry in Ho. apply attach_next_Raise in Ho as [-> _].
    pose proof (reaches_invariant _ _ _ _ Hr) as [Hm1 _]. simpl in Hm1.
    apply hop_Break_inv in Hb
      as [(Hgt & He & _) | [(_ & Hu & He & _) | (_ & _ & _ & [Hok | Hex])]].
    + destruct (Hlast st1 Hr) as (init & last & Hl); [left; lia|].
      rewrite Hl, raise_with_last_app in He. discriminate.
    + destruct (Hlast st1 Hr) as (init & last & Hl); [right; exact Hu|].
      rewrite Hl, raise_with_last_app in He. discriminate.
    + destruct Hok as (response & He & _). discriminate.
    + destruct Hex as (e & q' & [= <- _] & Hp). discriminate.
  - intros Hh Hm. specialize (Hst0 Hh).
    assert (Hgt : Z.of_nat (List.length (st_history st0)) >
                  BaseClient.max_redirects c).
    { rewrite Hst0. simpl. lia. }
    split; [exact Hgt|]. split; [exact Hst0|].
    unfold run, send_handling_redirects. cbv zeta. fold st0.
    unfold hops_bound. simpl redirect_loop.
    rewrite hop_empty_history_negative_limit; auto.
Qed.

End Properties.

(** * Worked instances *)

Lemma redirect_method_cases_witness :
  redirect_method (demo_request "POST" (https_url "a" "/"))
    (demo_response 303 "b") = "GET" /\
  redirect_method (demo_request "PUT" (https_url "a" "/"))
    (demo_response 302 "b") = "GET" /\
  redirect_method (demo_request "POST" (https_url "a" "/"))
    (demo_response 301 "b") = "GET" /\
  redirect_method (demo_request "HEAD" (https_url "a" "/"))
    (demo_response 303 "b") = "HEAD".
Proof.
  split; [|split; [|split]].
  - apply (proj1 (redirect_method_cases _ _)); [reflexivity|discriminate].
  - apply (proj1 (proj2 (redirect_method_cases _ _)));
      [reflexivity|discriminate].
  - apply (proj1 (proj2 (proj2 (redirect_method_cases _ _)))); reflexivity.
  - apply (proj2 (proj2 (proj2 (redirect_method_cases
                                  (demo_request "HEAD" (https_url "a" "/"))
                                  (demo_response 303 "b")))));
      simpl; intros [H1 H2]; try discriminate; now elim H2.
Defined.

Lemma redirect_content_cases_witness :
  redirect_content (demo_request "POST" (https_url "a" "/1")) "GET"
    (demo_response 301 "b") = Ok [] /\
  redirect_content
    (Request.mk "POST" (https_url "a" "/1") [] None true [])
    "POST" (demo_response 307 "b") =
  Raise (RedirectBodyUnavailable (demo_response 307 "b")) None /\
  redirect_content
    (AsyncRequest "POST" (https_url "a" "/1") [] [Byte.x68; Byte.x69] None)
    "POST" (demo_response 307 "b") = Ok [Byte.x68; Byte.x69].
Proof.
  split; [|split].
  - apply (proj1 (redirect_content_cases _ _ _)).
    split; [discriminate|reflexivity].
  - apply (proj1 (proj2 (redirect_content_cases _ _ _))); [|reflexivity].
    intros [H _]. now elim H.
  - apply (proj1 (proj2 (proj2 (redirect_content_cases
                                  (AsyncRequest "POST" (https_url "a" "/1") []
                                     [Byte.x68; Byte.x69] None)
                                  "POST" (demo_response 307 "b")))));
      [|reflexivity].
    intros [H _]. now elim H.
Defined.

Lemma redirect_headers_strips_cross_origin_witness :
  redirect_headers token_request (https_url "c" "/2") = [("Accept", "*/*")] /\
  redirect_headers token_request (https_url "a" "/2") =
  Request.headers token_request.
Proof.
  split.
  - destruct (proj1 (redirect_headers_strips_cross_origin token_request
                       (https_url "c" "/2"))) as [H _];
      [discriminate|].
    rewrite H. reflexivity.
  - apply (proj2 (redirect_headers_strips_cross_origin token_request
                    (https_url "a" "/2"))).
    reflexivity.
Defined.

Lemma merge_url_upgrade_witness :
  exists m,
    merge_url (M := demo_models) (demo_client 20)
      (URL_obj (mkURL "http" "" "" "example.invalid" None "/x" "" "")) = Ok m /\
    m = mkURL "https" "" "" "example.invalid" None "/x" "" "".
Proof.
  destruct (proj2 (merge_url_upgrade (M := demo_models) (demo_client 20)
                     (URL_obj (mkURL "http" "" "" "example.invalid" None "/x"
                                 "" "")))
              _ eq_refl) as (m & Hm & Hup & _).
  exists m. split; [exact Hm|]. apply Hup; reflexivity.
Defined.

(** C6, where the claim fails: a joined URL of scheme ftp whose host is
    preloaded is returned as it is, so a merged URL with a preloaded host
    need not have scheme https. *)
Lemma merge_url_preloaded_ftp :
  merge_url (M := demo_models) (demo_client 20)
    (URL_obj (mkURL "ftp" "" "" "example.invalid" None "/x" "" "")) =
  Ok (mkURL "ftp" "" "" "example.invalid" None "/x" "" "") /\
  in_hsts_preload (Models := demo_models)
    (host (mkURL "ftp" "" "" "example.invalid" None "/x" "" "")) = true /\
  scheme (mkURL "ftp" "" "" "example.invalid" None "/x" "" "") <> "https".
Proof. repeat split. discriminate. Qed.

Lemma merge_headers_idempotent_witness :
  Headers_getitem
    (Headers_init
       (merge_headers
          (headers_client [("Accept", "*/*"); ("accept", "text/html")])
          (merge_headers
             (headers_client [("Accept", "*/*"); ("accept", "text/html")])
             (Some [("X-Token", "t")]))))
    "Accept" = Ok "*/*, text/html" /\
  Headers_equiv
    (Headers_init
       (merge_headers (headers_client [("Accept", "*/*")])
          (merge_headers (headers_client [("Accept", "*/*")])
             (Some [("accept", "text/html"); ("X-Token", "t")]))))
    (Headers_init
       (merge_headers (headers_client [("Accept", "*/*")])
          (Some [("accept", "text/html"); ("X-Token", "t")]))).
Proof.
  split.
  - rewrite (proj1 (merge_headers_idempotent
                      (headers_client
                         [("Accept", "*/*"); ("accept", "text/html")])
                      (Some [("X-Token", "t")]))).
    reflexivity.
  - apply (proj1 (proj2 (merge_headers_idempotent
                           (headers_client [("Accept", "*/*")])
                           (Some [("accept", "text/html");
                                  ("X-Token", "t")])))).
    intros key. unfold Headers_get_list. simpl.
    destruct (name_eqb "Accept" key); simpl; lia.
Defined.

(** C9, where the claim fails: with two default items of one name, the
    first merge keeps both and the second merge leaves one item with the
    two values joined, so the two results are not the same header set. *)
Lemma merge_headers_twice_collapses_duplicates :
  Headers_init
    (merge_headers
       (headers_client [("Accept", "*/*"); ("accept", "text/html")])
       (Some [("X-Token", "t")])) =
  [("Accept", "*/*"); ("accept", "text/html"); ("X-Token", "t")] /\
  Headers_init
    (merge_headers
       (headers_client [("Accept", "*/*"); ("accept", "text/html")])
       (merge_headers
          (headers_client [("Accept", "*/*"); ("accept", "text/html")])
          (Some [("X-Token", "t")]))) =
  [("accept", "*/*, text/html"); ("X-Token", "t")] /\
  ~ Headers_equiv
      (Headers_init
         (merge_headers
            (headers_client [("Accept", "*/*"); ("accept", "text/html")])
            (merge_headers
               (headers_client [("Accept", "*/*"); ("accept", "text/html")])
               (Some [("X-Token", "t")]))))
      (Headers_init
         (merge_headers
            (headers_client [("Accept", "*/*"); ("accept", "text/html")])
            (Some [("X-Token", "t")]))).
Proof.
  split; [reflexivity|]. split; [reflexivity|].
  intros H. specialize (H "accept"). vm_compute in H. discriminate H.
Qed.

Lemma send_auth_order_witness :
  send_auth (M := demo_models) (auth_client "admin" "secret")
    (demo_request "GET" (https_url "a" "/")) None None =
  Ok (HTTPBasicAuth (Models := demo_models) "admin" "secret"
        (demo_request "GET" (https_url "a" "/"))) /\
  send_auth (M := demo_models) (demo_client 20)
    (demo_request "GET" (mkURL "https" "bob" "pw" "a" None "/" "" "")) None
    None =
  Ok (HTTPBasicAuth (Models := demo_models) "bob" "pw"
        (demo_request "GET" (mkURL "https" "bob" "pw" "a" None "/" "" ""))) /\
  send_auth (M := demo_models) (demo_client 20)
    (demo_request "GET" (https_url "a" "/")) None None =
  Ok (demo_request "GET" (https_url "a" "/")).
Proof.
  split; [|split].
  - apply (proj1 (proj2 (send_auth_order (M := demo_models)
                           (auth_client "admin" "secret")
                           (demo_request "GET" (https_url "a" "/")) None None
                           (or_intror eq_refl)))
             (Auth_tuple "admin" "secret")); reflexivity.
  - apply (proj1 (proj2 (proj2 (send_auth_order (M := demo_models)
                                  (demo_client 20)
                                  (demo_request "GET"
                                     (mkURL "https" "bob" "pw" "a" None "/"
                                        "" ""))
                                  None None (or_intror eq_refl)))));
      try reflexivity.
    left. discriminate.
  - apply (proj1 (proj2 (proj2 (proj2 (proj2
             (send_auth_order (M := demo_models) (demo_client 20)
                (demo_request "GET" (https_url "a" "/")) None None
                (or_intror eq_refl)))))));
      try reflexivity.
    right. reflexivity.
Defined.

(** C8, where the claim fails: with no per-call auth, a client that has
    a default auth applies it, and not the user-info of the URL. *)
Lemma send_auth_client_default_before_userinfo :
  send_auth (M := demo_models) (auth_client "admin" "secret")
    (demo_request "GET" (mkURL "https" "bob" "pw" "a" None "/" "" "")) None
    None =
  Ok (HTTPBasicAuth (Models := demo_models) "admin" "secret"
        (demo_request "GET" (mkURL "https" "bob" "pw" "a" None "/" "" ""))) /\
  send_auth (M := demo_models) (auth_client "admin" "secret")
    (demo_request "GET" (mkURL "https" "bob" "pw" "a" None "/" "" "")) None
    None <>
  Ok (HTTPBasicAuth (Models := demo_models) "bob" "pw"
        (demo_request "GET" (mkURL "https" "bob" "pw" "a" None "/" "" ""))).
Proof. split; [reflexivity|discriminate]. Qed.

Lemma send_attaches_sent_request_witness :
  exists st,
    send (M := demo_models) (D := scripted) (demo_client 20)
      (demo_request "GET" (https_url "a" "/")) false
      (Some (Auth_tuple "user" "pass")) true no_args None [] =
    Some (Raise (TransportError "ConnectTimeout")
            (Some (HTTPBasicAuth (Models := demo_models) "user" "pass"
                     (demo_request "GET" (https_url "a" "/")))),
          st).
Proof.
  eexists.
  apply (proj1 (send_attaches_sent_request (M := demo_models) (D := scripted)
                  (demo_client 20) (demo_request "GET" (https_url "a" "/"))
                  false (Some (Auth_tuple "user" "pass")) true no_args None []
                  _ _ None _ eq_refl eq_refl)).
  reflexivity.
Defined.

(** C7, where the claim fails: the request attached to the error is the
    request after the auth was applied, here with an Authorization header
    that the request passed to [send] does not have. *)
Lemma send_attaches_request_after_auth :
  exists st attached,
    send (M := demo_models) (D := scripted) (demo_client 20)
      (demo_request "GET" (https_url "a" "/")) false
      (Some (Auth_tuple "user" "pass")) true no_args None [] =
    Some (Raise (TransportError "ConnectTimeout") (Some attached), st) /\
    Request.headers attached = [("Authorization", "Basic user:pass")] /\
    attached <> demo_request "GET" (https_url "a" "/").
Proof.
  eexists. eexists. split; [reflexivity|]. split; [reflexivity|discriminate].
Qed.

Lemma too_many_redirects_lost_on_empty_history_witness :
  BaseClient.max_redirects (demo_client (-1)) < 0 /\
  send_handling_redirects (M := demo_models) (D := scripted)
    (demo_client (-1)) (demo_request "GET" (https_url "a" "/")) no_args true
    None [ok_200] =
  Some (Raise IndexError None,
        engine_start (D := scripted) (demo_client (-1))
          (demo_request "GET" (https_url "a" "/")) None [ok_200]).
Proof.
  split; [reflexivity|].
  apply (too_many_redirects_lost_on_empty_history (M := demo_models)
           (D := scripted) (demo_client (-1))
           (demo_request "GET" (https_url "a" "/")) no_args true [ok_200]).
  reflexivity.
Defined.

Lemma redirect_loop_detected_witness :
  exists last,
    Response.url last = https_url "b" "/" /\
    send_handling_redirects (M := demo_models) (D := scripted)
      (demo_client 5) (demo_request "GET" (https_url "a" "/")) no_args true
      None [found "b"; found "a"; ok_200] =
    Some (Raise (RedirectLoop last) None,
          advance (M := demo_models) (D := scripted) 2 no_args true
            (engine_start (D := scripted) (demo_client 5)
               (demo_request "GET" (https_url "a" "/")) None
               [found "b"; found "a"; ok_200])).
Proof.
  destruct (redirect_loop_detected (M := demo_models) (D := scripted)
              (demo_client 5) (demo_request "GET" (https_url "a" "/"))
              no_args true None [found "b"; found "a"; ok_200] _
              (reaches_advance no_args true 2 _))
    as (last & Hl & _ & Hrun).
  - vm_compute. discriminate.
  - eexists. split; [left; reflexivity|reflexivity].
  - exists last. split; [|exact Hrun].
    vm_compute in Hl. injection Hl as <-. reflexivity.
Defined.

(** C5, where the claim fails: with [max_redirects = 0] a response that
    redirects to the URL it was obtained for leads to an iteration whose
    request URL is in the history, and the engine raises TooManyRedirects,
    not RedirectLoop. *)
Lemma loop_beyond_limit_raises_too_many :
  exists last st,
    send_handling_redirects (M := demo_models) (D := scripted)
      (demo_client 0) (demo_request "GET" (https_url "a" "/")) no_args true
      None [found "a"; ok_200] =
    Some (Raise (TooManyRedirects last) None, st) /\
    reaches (M := demo_models) (D := scripted) no_args true
      (engine_start (D := scripted) (demo_client 0)
         (demo_request "GET" (https_url "a" "/")) None [found "a"; ok_200])
      st /\
    url_in_history (st_request st) (st_history st) /\
    st_sent st = [demo_request "GET" (https_url "a" "/")].
Proof.
  eexists. exists (advance (M := demo_models) (D := scripted) 1 no_args true
                     (engine_start (D := scripted) (demo_client 0)
                        (demo_request "GET" (https_url "a" "/")) None
                        [found "a"; ok_200])).
  split; [reflexivity|]. split; [apply reaches_advance|].
  split; [|reflexivity].
  eexists. split; [left; reflexivity|reflexivity].
Qed.

Lemma history_last_access_witness :
  (exists last,
     Response.url last = https_url "b" "/" /\
     send_handling_redirects (M := demo_models) (D := scripted)
       (demo_client 1) (demo_request "GET" (https_url "a" "/")) no_args true
       None [found "b"; found "c"; found "d"] =
     Some (Raise (TooManyRedirects last) None,
           advance (M := demo_models) (D := scripted) 2 no_args true
             (engine_start (D := scripted) (demo_client 1)
                (demo_request "GET" (https_url "a" "/")) None
                [found "b"; found "c"; found "d"]))) /\
  (forall r q st,
     send_handling_redirects (M := demo_models) (D := scripted)
       (demo_client 1) (demo_request "GET" (https_url "a" "/")) no_args true
       None [found "b"; found "c"; found "d"] = Some (r, st) ->
     r <> Raise IndexError q) /\
  send_handling_redirects (M := demo_models) (D := scripted)
    (demo_client (-1)) (demo_request "GET" (https_url "a" "/")) no_args true
    None [ok_200] =
  Some (Raise IndexError None,
        engine_start (D := scripted) (demo_client (-1))
          (demo_request "GET" (https_url "a" "/")) None [ok_200]).
Proof.
  split; [|split].
  - pose (st := advance (M := demo_models) (D := scripted) 2 no_args true
                  (engine_start (D := scripted) (demo_client 1)
                     (demo_request "GET" (https_url "a" "/")) None
                     [found "b"; found "c"; found "d"])).
    exists (List.last (st_history st) (demo_response 200 "")).
    split; [vm_compute; reflexivity|].
    apply (proj1 (proj1 (history_last_access (M := demo_models)
                           (D := scripted) (demo_client 1)
                           (demo_request "GET" (https_url "a" "/")) no_args
                           true None [found "b"; found "c"; found "d"])
                    st (removelast (st_history st))
                    (List.last (st_history st) (demo_response 200 ""))
                    (reaches_advance no_args true 2 _)
                    ltac:(vm_compute; reflexivity))).
    vm_compute. reflexivity.
  - apply (proj1 (proj2 (proj2 (history_last_access (M := demo_models)
                                  (D := scripted) (demo_client 1)
                                  (demo_request "GET" (https_url "a" "/"))
                                  no_args true None
                                  [found "b"; found "c"; found "d"])))).
    + left. reflexivity.
    + discriminate.
  - apply (proj2 (proj2 (proj2 (history_last_access (M := demo_models)
                                  (D := scripted) (demo_client (-1))
                                  (demo_request "GET" (https_url "a" "/"))
                                  no_args true None [ok_200])))).
    + left. reflexivity.
    + reflexivity.
Defined.

(** ** Scenarios of the specification *)

(** A chain of five redirects with [max_redirects = 4] raises
    TooManyRedirects after five requests; the attached response is the
    fifth. *)
Example scenario_too_many_redirects :
  match
    send_handling_redirects (M := demo_models) (D := scripted)
      (demo_client 4) (demo_request "GET" (https_url "a1" "/")) no_args true
      None [found "a2"; found "a3"; found "a4"; found "a5"; found "a6"]
  with
  | Some (Raise (TooManyRedirects last) None, st) =>
      URL_eqb (Response.url last) (https_url "a5" "/") &&
      Nat.eqb (List.length (st_sent st)) 5
  | _ => false
  end = true.
Proof. vm_compute. reflexivity. Qed.

(** The chain a, b, a raises RedirectLoop after two requests. *)
Example scenario_redirect_loop :
  match
    send_handling_redirects (M := demo_models) (D := scripted)
      (demo_client 20) (demo_request "GET" (https_url "a" "/")) no_args true
      None [found "b"; found "a"; ok_200]
  with
  | Some (Raise (RedirectLoop last) None, st) =>
      URL_eqb (Response.url last) (https_url "b" "/") &&
      Nat.eqb (List.length (st_sent st)) 2
  | _ => false
  end = true.
Proof. vm_compute. reflexivity. Qed.

(** [max_redirects = 2] lets two redirects and the terminal response
    through: three responses, and a history of length two on the one
    returned. *)
Example scenario_limit_reached :
  match
    send_handling_redirects (M := demo_models) (D := scripted)
      (demo_client 2) (demo_request "GET" (https_url "a" "/")) no_args true
      None [found "b"; found "c"; ok_200]
  with
  | Some (Ok response, st) =>
      (Response.status_code response =? 200) &&
      Nat.eqb (List.length (Response.history response)) 2 &&
      Nat.eqb (List.length (st_sent st)) 3
  | _ => false
  end = true.
Proof. vm_compute. reflexivity. Qed.

(** A POST answered by a 301 is followed by a GET without body. *)
Example scenario_post_301 :
  build_redirect_request (M := demo_models) (demo_client 20)
    (AsyncRequest "POST" (https_url "a" "/") [] [Byte.x68; Byte.x69] None)
    (demo_response 301 "a2") =
  Ok (AsyncRequest "GET" (https_url "a2" "/") [] [] None).
Proof. vm_compute. reflexivity. Qed.

(** * Further properties of the client *)

Lemma set_cookies_same (c : BaseClient.t) :
  BaseClient.set_cookies c (BaseClient.cookies c) = c.
Proof. destruct c. reflexivity. Qed.

Lemma set_cookies_twice (c : BaseClient.t) (j j' : Cookies) :
  BaseClient.set_cookies (BaseClient.set_cookies c j) j' =
  BaseClient.set_cookies c j'.
Proof. reflexivity. Qed.

Lemma chained_snoc (l : list Response.t) (r : Response.t) :
  chained l -> Response.history r = l -> chained (l ++ [r]).
Proof.
  intros Hl Hr i x Hx.
  destruct (Nat.lt_ge_cases i (List.length l)) as [Hlt|Hge].
  - rewrite nth_error_app1 in Hx by exact Hlt.
    rewrite firstn_app.
    replace (i - List.length l)%nat with 0%nat by lia.
    simpl. rewrite app_nil_r. apply Hl. exact Hx.
  - rewrite nth_error_app2 in Hx by exact Hge.
    destruct (i - List.length l)%nat as [|k] eqn:Ek.
    + simpl in Hx. injection Hx as <-.
      assert (i = List.length l) by lia. subst i.
      rewrite firstn_app, firstn_all, Nat.sub_diag. simpl.
      rewrite app_nil_r. exact Hr.
    + simpl in Hx. destruct k; discriminate.
Qed.

Lemma chained_init (l : list Response.t) (r : Response.t) :
  chained (l ++ [r]) -> chained l.
Proof.
  intros H i x Hx.
  assert (Hlt : (i < List.length l)%nat).
  { apply nth_error_Some. congruence. }
  rewrite (H i x) by (rewrite nth_error_app1; assumption).
  rewrite firstn_app.
  replace (i - List.length l)%nat with 0%nat by lia.
  simpl. apply app_nil_r.
Qed.

Section Engine.

Context {M : Models} {D : Dispatcher}.

(** What one iteration does to the history and to the client: nothing, or
    one response appended, whose history is the list before it and whose
    cookies went into the jar. *)
Lemma hop_effect (args : TransportArgs) (allow_redirects : bool)
  (st st' : EngineState) :
  hop args allow_redirects st = Continue st' \/
  (exists r, hop args allow_redirects st = Break r st') ->
  (st_history st' = st_history st /\ st_client st' = st_client st) \/
  (exists response,
     st_history st' = (st_history st ++ [response])%list /\
     Response.history response = st_history st /\
     st_client st' =
     BaseClient.set_cookies (st_client st)
       (extract_cookies (BaseClient.cookies (st_client st)) response)).
Proof.
  unfold hop.
  destruct (_ >? _); [intros [H|[r H]]; [discriminate|]; injection H as _ <-; auto|].
  destruct (existsb _ _);
    [intros [H|[r H]]; [discriminate|]; injection H as _ <-; auto|].
  destruct (dispatch_send _ _ _) as [[response|failure] w].
  - destruct (allow_redirects && _).
    + destruct (build_redirect_request _ _ _) as [request'|e q];
        (intros [H|[r H]]; [try discriminate|try discriminate]);
        [injection H as <-|injection H as _ <-];
        right; eexists; simpl; repeat split.
    + intros [H|[r H]]; [discriminate|]. injection H as _ <-.
      right. eexists. simpl. repeat split.
  - intros [H|[r H]]; [discriminate|]. injection H as _ <-. left. auto.
Qed.

Lemma effect_chained (st st' : EngineState) :
  (st_history st' = st_history st /\ st_client st' = st_client st) \/
  (exists response,
     st_history st' = (st_history st ++ [response])%list /\
     Response.history response = st_history st /\
     st_client st' =
     BaseClient.set_cookies (st_client st)
       (extract_cookies (BaseClient.cookies (st_client st)) response)) ->
  exists added,
    st_history st' = (st_history st ++ added)%list /\
    st_client st' =
    BaseClient.set_cookies (st_client st)
      (fold_left extract_cookies added (BaseClient.cookies (st_client st))) /\
    (chained (st_history st) -> chained (st_history st')).
Proof.
  intros [[Hh Hc] | (response & Hh & Hr & Hc)].
  - exists []. rewrite Hh, Hc, app_nil_r. simpl.
    rewrite set_cookies_same. auto.
  - exists [response]. rewrite Hh, Hc. simpl. repeat split.
    intros Hch. apply chained_snoc; assumption.
Qed.

(** The same, over the iterations of a run. *)
Lemma reaches_effect (args : TransportArgs) (allow_redirects : bool)
  (st st1 : EngineState) :
  reaches args allow_redirects st st1 ->
  exists added,
    st_history st1 = (st_history st ++ added)%list /\
    st_client st1 =
    BaseClient.set_cookies (st_client st)
      (fold_left extract_cookies added (BaseClient.cookies (st_client st))) /\
    (chained (st_history st) -> chained (st_history st1)).
Proof.
  induction 1 as [st|st st' st'' Hh Hr IH].
  - apply effect_chained. left. auto.
  - destruct IH as (added2 & Hh2 & Hc2 & Hch2).
    destruct (effect_chained st st' (hop_effect _ _ _ _ (or_introl Hh)))
      as (added1 & Hh1 & Hc1 & Hch1).
    exists (added1 ++ added2)%list. split; [|split].
    + rewrite Hh2, Hh1, app_assoc. reflexivity.
    + rewrite Hc2, Hc1. simpl. rewrite fold_left_app. reflexivity.
    + auto.
Qed.

End Engine.

Section EngineRuns.

Context {M : Models} {D : Dispatcher}.

Lemma is_redirect_set_history (r : Response.t) (h : list Response.t) :
  is_redirect (Response.set_history r h) = is_redirect r.
Proof. reflexivity. Qed.

Lemma is_redirect_set_next (r : Response.t) :
  is_redirect (Response.set_next r) = is_redirect r.
Proof. reflexivity. Qed.

(** The code after the loop, on the history list. *)
Lemma attach_next_effect (r0 : result Response.t) (st2 st : EngineState)
  (r : result Response.t) :
  attach_next r0 st2 = (r, st) ->
  st_client st = st_client st2 /\ st_sent st = st_sent st2 /\
  st_world st = st_world st2 /\
  ((r = r0 /\ st = st2 /\
    (forall response, r0 = Ok response -> is_redirect response = false)) \/
   (exists response0,
      r0 = Ok response0 /\ is_redirect response0 = true /\
      r = Ok (Response.set_next response0) /\
      st_history st =
      (removelast (st_history st2) ++ [Response.set_next response0])%list)).
Proof.
  unfold attach_next. destruct r0 as [response0|e q].
  - destruct (is_redirect response0) eqn:E; intros [= <- <-]; simpl.
    + repeat split. right. exists response0. auto.
    + repeat split. left. repeat split. intros response [= <-]. exact E.
  - intros [= <- <-]. repeat split. left. repeat split. discriminate.
Qed.

(** X1. The redirect loop ends for every dispatcher: a call gives a result,
    the same for every iteration budget from [hops_bound] on, and so does
    [send]. *)
Theorem redirect_engine_terminates (c : BaseClient.t) (request : Request.t)
  (args : TransportArgs) (allow_redirects : bool)
  (history : option (list Response.t)) (w : World) :
  let st0 := engine_start c request history w in
  (exists out,
     send_handling_redirects c request args allow_redirects history w =
     Some out /\
     forall fuel, (hops_bound c (st_history st0) <= fuel)%nat ->
       redirect_loop fuel args allow_redirects st0 = Some out) /\
  (forall stream auth trust_env, exists out,
     send c request stream auth allow_redirects args trust_env w = Some out).
Proof.
  intros st0. split.
  - destruct (redirect_loop_total args allow_redirects
                (hops_bound c (st_history st0)) st0 (Nat.le_refl _))
      as [out Hout].
    exists out. split; [exact Hout|].
    intros fuel Hf.
    destruct (redirect_loop_run _ _ _ _ _ Hout)
      as (st1 & r & st2 & Hr & Hb & ->).
    apply (reaches_run _ _ _ _ Hr _ _ _ Hb). exact Hf.
  - intros stream auth trust_env. unfold send.
    destruct (send_auth c request auth trust_env) as [request'|e r];
      [|eauto].
    destruct (send_handling_redirects_total c request' args allow_redirects
                None w) as [[[response|e r] st] ->].
    + destruct (negb stream); [|eauto].
      destruct (response_read response (st_world st)) as [[e|] w1]; eauto.
    + destruct (is_HTTPError e); eauto.
Qed.

(** X2. Every response carries the responses before it: if the history a
    call is entered with is chained, so is the history list the call
    leaves, which extends it; a returned response is the last item of that
    list and its own history is the rest of it. *)
Theorem history_is_chained (c : BaseClient.t) (request : Request.t)
  (args : TransportArgs) (allow_redirects : bool)
  (history : option (list Response.t)) (w : World)
  (r : result Response.t) (st : EngineState) :
  send_handling_redirects c request args allow_redirects history w =
  Some (r, st) ->
  let h0 := st_history (engine_start c request history w) in
  (exists added, st_history st = (h0 ++ added)%list) /\
  (chained h0 -> chained (st_history st)) /\
  (forall response, r = Ok response ->
     st_history st = (Response.history response ++ [response])%list).
Proof.
  unfold send_handling_redirects. cbv zeta. intros H.
  apply redirect_loop_run in H as (st1 & r0 & st2 & Hr & Hb & Ho).
  symmetry in Ho.
  destruct (reaches_effect _ _ _ _ Hr) as (added1 & Hh1 & _ & Hch1).
  pose proof (hop_effect _ _ _ _ (or_intror (ex_intro _ r0 Hb))) as Heff.
  destruct (effect_chained _ _ Heff) as (added2 & Hh2 & _ & Hch2).
  destruct (attach_next_effect _ _ _ _ Ho)
    as (_ & _ & _ & [(-> & -> & _) | (response0 & -> & Hred & -> & Hst)]).
  - split; [|split].
    + exists (added1 ++ added2)%list. rewrite Hh2, Hh1, app_assoc. reflexivity.
    + auto.
    + intros response ->.
      apply hop_Break_inv in Hb
        as [(_ & He & _) | [(_ & _ & He & _) | (_ & _ & _ & [Hok | Hex])]].
      * unfold raise_with_last in He.
        destruct (last_item (st_history st1)); discriminate.
      * unfold raise_with_last in He.
        destruct (last_item (st_history st1)); discriminate.
      * destruct Hok as (response1 & [= <-] & Hh & Hst). congruence.
      * destruct Hex as (e & q & He & _). discriminate.
  - apply hop_Break_inv in Hb
      as [(_ & He & _) | [(_ & _ & He & _) | (_ & _ & _ & [Hok | Hex])]].
    + unfold raise_with_last in He.
      destruct (last_item (st_history st1)); discriminate.
    + unfold raise_with_last in He.
      destruct (last_item (st_history st1)); discriminate.
    + destruct Hok as (response1 & [= <-] & Hh & Hst2).
      rewrite Hst2, removelast_last in Hst. split; [|split].
      * exists (added1 ++ [Response.set_next response0])%list.
        rewrite Hst, Hh1, app_assoc. reflexivity.
      * intros Hch. rewrite Hst. apply chained_snoc; [auto|exact Hh].
      * intros response [= <-]. rewrite Hst. simpl. rewrite Hh. reflexivity.
    + destruct Hex as (e & q & He & _). discriminate.
Qed.

(** X3. A call changes nothing of the client but its cookie jar, and the
    jar it leaves is the one it found with [extract_cookies] applied once
    for each response received, in order; those responses are what the
    call appended to the history list (the last of them with [next]
    attached if it is a returned redirect). *)
Theorem cookies_extracted_once_per_response (c : BaseClient.t)
  (request : Request.t) (args : TransportArgs) (allow_redirects : bool)
  (history : option (list Response.t)) (w : World)
  (r : result Response.t) (st : EngineState) :
  send_handling_redirects c request args allow_redirects history w =
  Some (r, st) ->
  let h0 := st_history (engine_start c request history w) in
  exists received,
    st_client st =
    BaseClient.set_cookies c
      (fold_left extract_cookies received (BaseClient.cookies c)) /\
    (st_history st = (h0 ++ received)%list \/
     exists earlier last,
       received = (earlier ++ [last])%list /\
       st_history st = (h0 ++ earlier ++ [Response.set_next last])%list).
Proof.
  unfold send_handling_redirects. cbv zeta. intros H.
  apply redirect_loop_run in H as (st1 & r0 & st2 & Hr & Hb & Ho).
  symmetry in Ho.
  destruct (reaches_effect _ _ _ _ Hr) as (added1 & Hh1 & Hc1 & _).
  pose proof (hop_effect _ _ _ _ (or_intror (ex_intro _ r0 Hb))) as Heff.
  simpl in Hc1.
  assert (Hrec : exists added2,
            st_history st2 = (st_history st1 ++ added2)%list /\
            st_client st2 =
            BaseClient.set_cookies c
              (fold_left extract_cookies (added1 ++ added2)
                 (BaseClient.cookies c)) /\
            (added2 = [] \/ exists x, added2 = [x])).
  { destruct Heff as [[Hh Hc] | (response & Hh & _ & Hc)].
    - exists []. rewrite Hh, Hc, Hc1, !app_nil_r. auto.
    - exists [response]. rewrite Hh, Hc, Hc1, fold_left_app. simpl. eauto. }
  destruct Hrec as (added2 & Hh2 & Hc2 & Hshape).
  exists (added1 ++ added2)%list.
  destruct (attach_next_effect _ _ _ _ Ho)
    as (Hc & _ & _ & [(_ & -> & _) | (response0 & -> & _ & _ & Hst)]).
  - split; [exact Hc2|]. left. rewrite Hh2, Hh1, app_assoc. reflexivity.
  - rewrite Hc. split; [exact Hc2|]. right.
    apply hop_Break_inv in Hb
      as [(_ & He & _) | [(_ & _ & He & _) | (_ & _ & _ & [Hok | Hex])]].
    + unfold raise_with_last in He.
      destruct (last_item (st_history st1)); discriminate.
    + unfold raise_with_last in He.
      destruct (last_item (st_history st1)); discriminate.
    + destruct Hok as (response1 & [= <-] & _ & Hst2).
      rewrite Hst2, removelast_last in Hst.
      rewrite Hst2 in Hh2. apply app_inv_head in Hh2. subst added2.
      exists added1, response0. split; [reflexivity|].
      rewrite Hst, Hh1, app_assoc. reflexivity.
    + destruct Hex as (e & q & He & _). discriminate.
Qed.

Lemma hop_follows_redirects (args : TransportArgs) (st st' : EngineState)
  (response : Response.t) :
  hop args true st = Break (Ok response) st' -> is_redirect response = false.
Proof.
  unfold hop.
  destruct (_ >? _);
    [unfold raise_with_last; destruct (last_item _); discriminate|].
  destruct (existsb _ _);
    [unfold raise_with_last; destruct (last_item _); discriminate|].
  destruct (dispatch_send _ _ _) as [[response0|failure] w].
  - simpl andb. destruct (is_redirect _) eqn:E.
    + destruct (build_redirect_request _ _ _); discriminate.
    + intros [= <- _]. exact E.
  - destruct failure; discriminate.
Qed.

Lemma hop_never_follows (args : TransportArgs) (st st' : EngineState) :
  hop args false st <> Continue st'.
Proof.
  unfold hop.
  destruct (_ >? _); [discriminate|].
  destruct (existsb _ _); [discriminate|].
  destruct (dispatch_send _ _ _) as [[response0|failure] w]; discriminate.
Qed.

Lemma unfollowed_sends_once (c : BaseClient.t) (request : Request.t)
  (args : TransportArgs) (history : option (list Response.t)) (w : World)
  (r : result Response.t) (st : EngineState) :
  send_handling_redirects c request args false history w = Some (r, st) ->
  st_sent st = [] \/ st_sent st = [request].
Proof.
  intros H.
  unfold send_handling_redirects, hops_bound in H. cbv zeta in H.
  simpl redirect_loop in H.
  destruct (hop args false (engine_start c request history w))
    as [st'|r0 st'] eqn:Eh.
  - exfalso. eapply hop_never_follows. exact Eh.
  - injection H as H.
    pose proof (attach_next_sent r0 st') as Hs. rewrite H in Hs.
    simpl in Hs. rewrite Hs.
    apply hop_Break_inv in Eh
      as [(_ & _ & ->) | [(_ & _ & _ & ->) | (_ & _ & Hsent & _)]];
      auto.
Qed.

(** X4. With [allow_redirects] true a returned response is never a
    redirect. With [allow_redirects] false at most one request is handed
    to the dispatcher, the request of the call. In both cases a returned
    response that is a redirect has the [next] continuation attached. *)
Theorem redirects_followed_or_deferred (c : BaseClient.t)
  (request : Request.t) (args : TransportArgs) (allow_redirects : bool)
  (history : option (list Response.t)) (w : World)
  (r : result Response.t) (st : EngineState) :
  send_handling_redirects c request args allow_redirects history w =
  Some (r, st) ->
  (allow_redirects = true ->
   forall response, r = Ok response -> is_redirect response = false) /\
  (allow_redirects = false -> st_sent st = [] \/ st_sent st = [request]) /\
  (forall response, r = Ok response -> is_redirect response = true ->
     Response.next response = true).
Proof.
  intros H. split; [|split].
  - intros -> response ->.
    unfold send_handling_redirects in H. cbv zeta in H.
    apply redirect_loop_run in H as (st1 & r0 & st2 & _ & Hb & Ho).
    symmetry in Ho.
    destruct (attach_next_effect _ _ _ _ Ho)
      as (_ & _ & _ & [(<- & _ & _) | (response0 & -> & Hred & _)]).
    + eapply hop_follows_redirects. exact Hb.
    + apply hop_follows_redirects in Hb. congruence.
  - intros ->. eapply unfollowed_sends_once. exact H.
  - intros response -> Hred.
    unfold send_handling_redirects in H. cbv zeta in H.
    apply redirect_loop_run in H as (st1 & r0 & st2 & _ & _ & Ho).
    symmetry in Ho.
    destruct (attach_next_effect _ _ _ _ Ho)
      as (_ & _ & _ & [(<- & _ & Hno) | (response0 & _ & _ & [= ->] & _)]).
    + rewrite (Hno response eq_refl) in Hred. discriminate.
    + reflexivity.
Qed.

Lemma loop_returned_history (fuel : nat) (args : TransportArgs)
  (allow_redirects : bool) (st st2 : EngineState) (response : Response.t) :
  redirect_loop fuel args allow_redirects st = Some (Ok response, st2) ->
  Z.of_nat (List.length (Response.history response)) <=
  BaseClient.max_redirects (st_client st) /\
  exists added, Response.history response = (st_history st ++ added)%list.
Proof.
  intros H.
  apply redirect_loop_run in H as (st1 & r & st3 & Hr & Hb & Ho).
  symmetry in Ho. apply attach_next_Ok in Ho as (response0 & -> & Hh & _).
  pose proof (reaches_invariant _ _ _ _ Hr) as (Hm & added & Ha & _).
  apply hop_Break_inv in Hb
    as [(_ & He & _) | [(_ & _ & He & _) | (Hle & _ & _ & [Hok | Hex])]].
  - unfold raise_with_last in He.
    destruct (last_item (st_history st1)); discriminate.
  - unfold raise_with_last in He.
    destruct (last_item (st_history st1)); discriminate.
  - destruct Hok as (response1 & [= <-] & Hh1 & _).
    rewrite Hh, Hh1. split; [rewrite <- Hm; exact Hle|eauto].
  - destruct Hex as (e & q & He & _). discriminate.
Qed.

(** X6. The [next] continuation of a returned redirect re-enters the loop
    with the history of the call that returned it: it always gives a
    result, a response it returns has a history that extends that history
    and is no longer than [max_redirects], and when that history is
    already longer than [max_redirects] it raises TooManyRedirects with the
    last response of it. *)
Theorem send_next_keeps_the_limit (args : TransportArgs)
  (allow_redirects : bool) (st : EngineState) (response : Response.t) :
  (exists out, send_next args allow_redirects st response = Some out) /\
  (forall response2 st2,
     send_next args allow_redirects st response = Some (Ok response2, st2) ->
     Z.of_nat (List.length (Response.history response2)) <=
     BaseClient.max_redirects (st_client st) /\
     exists added,
       Response.history response2 = (st_history st ++ added)%list) /\
  (forall request' last,
     build_redirect_request (st_client st) (st_request st) response =
     Ok request' ->
     Z.of_nat (List.length (st_history st)) >
     BaseClient.max_redirects (st_client st) ->
     last_item (st_history st) = Some last ->
     send_next args allow_redirects st response =
     Some (Raise (TooManyRedirects last) None,
           mkEngineState (st_client st) request' (st_history st)
             (st_world st) (st_sent st))).
Proof.
  unfold send_next.
  destruct (build_redirect_request (st_client st) (st_request st) response)
    as [request'|e q].
  - split; [|split].
    + apply redirect_loop_total. apply Nat.le_refl.
    + intros response2 st2 H. apply loop_returned_history in H. exact H.
    + intros request'' last [= <-] Hgt Hl.
      unfold hops_bound. simpl redirect_loop.
      rewrite hop_too_many by exact Hgt.
      unfold raise_with_last. simpl st_history. rewrite Hl. reflexivity.
  - split; [eauto|]. split; [discriminate|discriminate].
Qed.

End EngineRuns.

Section Pipeline.

Context {M : Models} {D : Dispatcher}.




Lemma reaches_sent_first (args : TransportArgs) (allow_redirects : bool)
  (st st1 : EngineState) :
  reaches args allow_redirects st st1 ->
  st = st1 \/
  exists rest, st_sent st1 = (st_sent st ++ st_request st :: rest)%list.
Proof.
  induction 1 as [st|st st' st'' Hh Hr IH]; [auto|].
  right. apply hop_Continue_inv in Hh as (_ & _ & _ & _ & Hs).
  destruct IH as [<- | [rest ->]]; rewrite Hs.
  - exists []. reflexivity.
  - rewrite <- app_assoc. simpl. eauto.
Qed.

(** The first request a call hands to the dispatcher is its own. *)
Lemma engine_sent_first (c : BaseClient.t) (request : Request.t)
  (args : TransportArgs) (allow_redirects : bool)
  (history : option (list Response.t)) (w : World)
  (r : result Response.t) (st : EngineState) :
  send_handling_redirects c request args allow_redirects history w =
  Some (r, st) ->
  st_sent st = [] \/ exists rest, st_sent st = request :: rest.
Proof.
  unfold send_handling_redirects. cbv zeta. intros H.
  apply redirect_loop_run in H as (st1 & r0 & st2 & Hr & Hb & Ho).
  pose proof (attach_next_sent r0 st2) as Hs. rewrite <- Ho in Hs.
  simpl in Hs. rewrite Hs.
  apply reaches_sent_first in Hr.
  assert (Hst2 : st_sent st2 = st_sent st1 \/
                 st_sent st2 = (st_sent st1 ++ [st_request st1])%list).
  { apply hop_Break_inv in Hb
      as [(_ & _ & ->) | [(_ & _ & _ & ->) | (_ & _ & Hsent & _)]]; auto. }
  destruct Hr as [<- | [rest Hr]]; simpl in *.
  - destruct Hst2 as [-> | ->]; [auto|right; exists []; reflexivity].
  - right. destruct Hst2 as [-> | ->]; rewrite Hr; simpl; eauto.
Qed.

(** [send] is the scheme check and the auth, then the engine, then the
    reading of the body: the requests sent and the client are those the
    engine leaves. *)
Lemma send_inv (c : BaseClient.t) (request : Request.t) (stream : bool)
  (auth : option AuthTypes) (allow_redirects : bool) (args : TransportArgs)
  (trust_env : option bool) (w : World) (r : result Response.t)
  (st : EngineState) :
  send c request stream auth allow_redirects args trust_env w = Some (r, st) ->
  (exists e q, send_auth c request auth trust_env = Raise e q /\
               r = Raise e q /\ st = engine_start c request None w) \/
  (exists request' r0 st0,
     send_auth c request auth trust_env = Ok request' /\
     send_handling_redirects c request' args allow_redirects None w =
     Some (r0, st0) /\
     st_sent st = st_sent st0 /\ st_client st = st_client st0 /\
     st_history st = st_history st0).
Proof.
  unfold send.
  destruct (send_auth c request auth trust_env) as [request'|e q].
  - destruct (send_handling_redirects c request' args allow_redirects None w)
      as [[[response|e q] st0]|] eqn:Er; [| |discriminate].
    + destruct (negb stream).
      * destruct (response_read response (st_world st0)) as [[e|] w1];
          intros [= <- <-]; right; exists request', (Ok response), st0; auto.
      * intros [= <- <-]. right. exists request', (Ok response), st0. auto.
    + destruct (is_HTTPError e); intros [= <- <-]; right;
        exists request', (Raise e q), st0; auto.
  - intros [= <- <-]. left. eauto.
Qed.

(** X9. [send] refuses a URL whose scheme is neither http nor https with
    InvalidURL: the auth is not applied, nothing reaches the dispatcher,
    and no request is attached to the error, which is raised before the
    [try]. *)
Theorem send_rejects_other_schemes (c : BaseClient.t) (request : Request.t)
  (stream : bool) (auth : option AuthTypes) (allow_redirects : bool)
  (args : TransportArgs) (trust_env : option bool) (w : World) :
  scheme (Request.url request) <> "http" ->
  scheme (Request.url request) <> "https" ->
  exists message,
    send c request stream auth allow_redirects args trust_env w =
    Some (Raise (InvalidURL message) None, engine_start c request None w) /\
    st_sent (engine_start c request None w) = [] /\
    st_world (engine_start c request None w) = w.
Proof.
  intros Hh Hs. unfold send, send_auth.
  apply string_eqb_neq in Hh, Hs. rewrite Hh, Hs. simpl.
  eexists. repeat split.
Qed.

(** X10. Whatever a call of [send] does, it hands at most
    [max_redirects + 1] requests to the dispatcher, and the first of them
    is the request given to [send] with the resolved auth applied. *)
Theorem send_dispatch_bound (c : BaseClient.t) (request : Request.t)
  (stream : bool) (auth : option AuthTypes) (allow_redirects : bool)
  (args : TransportArgs) (trust_env : option bool) (w : World)
  (r : result Response.t) (st : EngineState) :
  send c request stream auth allow_redirects args trust_env w = Some (r, st) ->
  Z.of_nat (List.length (st_sent st)) <=
  Z.max 0 (BaseClient.max_redirects c + 1) /\
  (st_sent st = [] \/
   exists request' rest,
     send_auth c request auth trust_env = Ok request' /\
     st_sent st = request' :: rest).
Proof.
  intros H. apply send_inv in H
    as [(e & q & _ & _ & ->) | (request' & r0 & st0 & Ha & He & -> & _)].
  - simpl. split; [lia|auto].
  - split.
    + apply dispatch_count_bound in He. simpl in He. lia.
    + apply engine_sent_first in He as [-> | [rest ->]]; [auto|].
      right. eauto.
Qed.

(** X11. In the merged headers a name that the per-call headers have is
    left with one item, whose value is the per-call values of that name
    joined by a comma; every other name has the items of the client's
    default headers (names compared without regard to case). The result is
    [None] only when the per-call headers are [None] and the client has no
    default headers. *)
Theorem merge_headers_precedence (c : BaseClient.t) (h : HeaderTypes) :
  (forall key,
     Headers_get_list (Headers_init (merge_headers c h)) key =
     if Headers_contains (Headers_init h) key
     then [Headers_joined (Headers_init h) key]
     else Headers_get_list (BaseClient.headers c) key) /\
  (merge_headers c h = None <-> h = None /\ BaseClient.headers c = []).
Proof.
  unfold merge_headers.
  destruct (HeaderTypes_bool h || Headers_bool (BaseClient.headers c)) eqn:E.
  - cbv zeta. split.
    + intros key.
      change (Headers_init (Some (Headers_update
                (Headers_init (Some (BaseClient.headers c))) h)))
        with (Headers_update (BaseClient.headers c) h).
      apply Headers_get_list_update.
    + split; [discriminate|]. intros [-> Hc]. rewrite Hc in E. discriminate.
  - apply orb_false_iff in E as [Eh Ec].
    assert (Hc : BaseClient.headers c = []).
    { destruct (BaseClient.headers c); [reflexivity|discriminate]. }
    split.
    + intros key. rewrite Hc.
      destruct h as [[|kv tl]|]; [reflexivity|discriminate|reflexivity].
    + split; [intros ->; auto|intros [-> _]; reflexivity].
Qed.

End Pipeline.

Section Surface.

Context {M : Models} {D : Dispatcher} {R : RequestModels}.

Lemma request_inv (c : BaseClient.t) (method : string) (url : URLTypes)
  (data : option AsyncRequestData) (files : option RequestFiles)
  (json : option Json) (params : option QueryParamTypes)
  (headers : HeaderTypes) (cookies : CookieTypes) (stream : bool)
  (auth : option AuthTypes) (allow_redirects : bool) (args : TransportArgs)
  (trust_env : option bool) (w : World) (r : result Response.t)
  (out : AsyncClient.Outcome) :
  AsyncClient.request c method url data files json params headers cookies
    stream auth allow_redirects args trust_env w = Some (r, out) ->
  (out = AsyncClient.mkOutcome D c w [] /\ exists e q, r = Raise e q) \/
  (exists request st,
     send c request stream auth allow_redirects args trust_env w =
     Some (r, st) /\ out = AsyncClient.outcome_of st).
Proof.
  unfold AsyncClient.request.
  destruct (merge_url c url) as [u|e q]; [|intros [= <- <-]; left; eauto].
  cbv zeta.
  destruct (AsyncRequest_init _ _ _ _ _ _ _ _) as [request|e q];
    [|intros [= <- <-]; left; eauto].
  destruct (send c request stream auth allow_redirects args trust_env w)
    as [[r0 st]|] eqn:Es; [|discriminate].
  intros [= <- <-]. right. eauto.
Qed.

(** X12. A call through [request] or one of its wrappers hands at most
    [max_redirects + 1] requests to the dispatcher and none when the URL
    cannot be merged or the request cannot be built; [head], whose
    [allow_redirects] defaults to false, hands over at most one when the
    argument is left out. *)
Theorem head_does_not_follow_redirects (c : BaseClient.t) (url : URLTypes)
  (params : option QueryParamTypes) (headers : HeaderTypes)
  (cookies : CookieTypes) (stream : option bool) (auth : option AuthTypes)
  (args : TransportArgs) (trust_env : option bool) (w : World) :
  (forall r out,
     AsyncClient.head c url params headers cookies stream auth None args
       trust_env w = Some (r, out) ->
     (List.length (AsyncClient.out_sent out) <= 1)%nat) /\
  (forall method data files json stream' allow_redirects r out,
     AsyncClient.request c method url data files json params headers cookies
       stream' auth allow_redirects args trust_env w = Some (r, out) ->
     Z.of_nat (List.length (AsyncClient.out_sent out)) <=
     Z.max 0 (BaseClient.max_redirects c + 1)) /\
  (forall method data files json stream' allow_redirects e q,
     merge_url c url = Raise e q ->
     AsyncClient.request c method url data files json params headers cookies
       stream' auth allow_redirects args trust_env w =
     Some (Raise e q, AsyncClient.mkOutcome D c w [])).
Proof.
  split; [|split].
  - intros r out H. unfold AsyncClient.head in H.
    apply request_inv in H as [[-> _] | (request & st & Hs & ->)];
      [simpl; lia|].
    apply send_inv in Hs
      as [(e & q & _ & _ & ->) | (request' & r0 & st0 & _ & He & Hsent & _)];
      [simpl; lia|].
    simpl. rewrite Hsent.
    apply unfollowed_sends_once in He as [-> | ->]; simpl; lia.
  - intros method data files json stream' allow_redirects r out H.
    apply request_inv in H as [[-> _] | (request & st & Hs & ->)];
      [simpl; lia|].
    apply send_inv in Hs
      as [(e & q & _ & _ & ->) | (request' & r0 & st0 & _ & He & Hsent & _)];
      [simpl; lia|].
    simpl. rewrite Hsent.
    apply dispatch_count_bound in He. simpl in He. lia.
  - intros method data files json stream' allow_redirects e q H.
    unfold AsyncClient.request. rewrite H. reflexivity.
Qed.

End Surface.

(** ** Worked instances of the further properties *)

Lemma chained_nil : chained [].
Proof. intros [|i] r H; discriminate. Qed.

Lemma redirect_engine_terminates_witness :
  exists out,
    send_handling_redirects (M := demo_models) (D := scripted)
      (demo_client 5) (demo_request "GET" (https_url "a" "/")) no_args true
      None [found "b"; found "c"; ok_200] = Some out /\
    redirect_loop (M := demo_models) (D := scripted) 100 no_args true
      (engine_start (D := scripted) (demo_client 5)
         (demo_request "GET" (https_url "a" "/")) None
         [found "b"; found "c"; ok_200]) = Some out.
Proof.
  destruct (proj1 (redirect_engine_terminates (M := demo_models)
                     (D := scripted) (demo_client 5)
                     (demo_request "GET" (https_url "a" "/")) no_args true
                     None [found "b"; found "c"; ok_200]))
    as (out & Hout & Hfuel).
  exists out. split; [exact Hout|].
  apply Hfuel. apply Nat.leb_le. vm_compute. reflexivity.
Defined.

Lemma history_is_chained_witness :
  exists r st,
    send_handling_redirects (M := demo_models) (D := scripted)
      (demo_client 5) (demo_request "GET" (https_url "a" "/")) no_args true
      None [found "b"; found "c"; ok_200] = Some (r, st) /\
    chained (st_history st).
Proof.
  destruct (send_handling_redirects (M := demo_models) (D := scripted)
              (demo_client 5) (demo_request "GET" (https_url "a" "/"))
              no_args true None [found "b"; found "c"; ok_200])
    as [[r st]|] eqn:E; [|vm_compute in E; discriminate E].
  exists r, st. split; [reflexivity|].
  apply (proj1 (proj2 (history_is_chained _ _ _ _ _ _ _ _ E))).
  apply chained_nil.
Defined.

Lemma cookies_extracted_once_per_response_witness :
  exists r st received,
    send_handling_redirects (M := demo_models) (D := scripted)
      (demo_client 5) (demo_request "GET" (https_url "a" "/")) no_args true
      None [found "b"; found "c"; ok_200] = Some (r, st) /\
    st_client st =
    BaseClient.set_cookies (demo_client 5)
      (fold_left (extract_cookies (Models := demo_models)) received
         (BaseClient.cookies (demo_client 5))).
Proof.
  destruct (send_handling_redirects (M := demo_models) (D := scripted)
              (demo_client 5) (demo_request "GET" (https_url "a" "/"))
              no_args true None [found "b"; found "c"; ok_200])
    as [[r st]|] eqn:E; [|vm_compute in E; discriminate E].
  destruct (cookies_extracted_once_per_response _ _ _ _ _ _ _ _ E)
    as (received & Hc & _).
  exists r, st, received. split; [reflexivity|exact Hc].
Defined.

Lemma redirects_followed_or_deferred_witness :
  exists response st,
    send_handling_redirects (M := demo_models) (D := scripted)
      (demo_client 5) (demo_request "GET" (https_url "a" "/")) no_args true
      None [found "b"; found "c"; ok_200] = Some (Ok response, st) /\
    is_redirect response = false.
Proof.
  destruct (send_handling_redirects (M := demo_models) (D := scripted)
              (demo_client 5) (demo_request "GET" (https_url "a" "/"))
              no_args true None [found "b"; found "c"; ok_200])
    as [[[response|e q] st]|] eqn:E;
    [|vm_compute in E; discriminate E|vm_compute in E; discriminate E].
  exists response, st. split; [reflexivity|].
  apply (proj1 (redirects_followed_or_deferred _ _ _ _ _ _ _ _ E) eq_refl
           response eq_refl).
Defined.

Lemma send_next_keeps_the_limit_witness :
  send_next (M := demo_models) (D := scripted) no_args false
    (mkEngineState (D := scripted) (demo_client 0)
       (demo_request "GET" (https_url "a" "/"))
       [Response.set_next (demo_response 302 "b")] [ok_200]
       [demo_request "GET" (https_url "a" "/")])
    (Response.set_next (demo_response 302 "b")) =
  Some (Raise (TooManyRedirects (Response.set_next (demo_response 302 "b")))
          None,
        mkEngineState (D := scripted) (demo_client 0)
          (demo_request "GET" (https_url "b" "/"))
          [Response.set_next (demo_response 302 "b")] [ok_200]
          [demo_request "GET" (https_url "a" "/")]).
Proof.
  apply (proj2 (proj2 (send_next_keeps_the_limit (M := demo_models)
                         (D := scripted) no_args false
                         (mkEngineState (D := scripted) (demo_client 0)
                            (demo_request "GET" (https_url "a" "/"))
                            [Response.set_next (demo_response 302 "b")]
                            [ok_200]
                            [demo_request "GET" (https_url "a" "/")])
                         (Response.set_next (demo_response 302 "b"))))
           (demo_request "GET" (https_url "b" "/"))
           (Response.set_next (demo_response 302 "b"))).
  - vm_compute. reflexivity.
  - vm_compute. reflexivity.
  - vm_compute. reflexivity.
Defined.



Lemma send_rejects_other_schemes_witness :
  exists message,
    send (M := demo_models) (D := scripted) (demo_client 20)
      (demo_request "GET" (mkURL "ftp" "" "" "a" None "/" "" "")) false None
      true no_args None [ok_200] =
    Some (Raise (InvalidURL message) None,
          engine_start (D := scripted) (demo_client 20)
            (demo_request "GET" (mkURL "ftp" "" "" "a" None "/" "" "")) None
            [ok_200]).
Proof.
  destruct (send_rejects_other_schemes (M := demo_models) (D := scripted)
              (demo_client 20)
              (demo_request "GET" (mkURL "ftp" "" "" "a" None "/" "" ""))
              false None true no_args None [ok_200])
    as (message & H & _); [discriminate|discriminate|].
  exists message. exact H.
Defined.

Lemma send_dispatch_bound_witness :
  exists r st,
    send (M := demo_models) (D := scripted) (demo_client 1)
      (demo_request "GET" (https_url "a" "/")) false None true no_args None
      [found "b"; found "c"; found "d"; ok_200] = Some (r, st) /\
    Z.of_nat (List.length (st_sent st)) <= 2.
Proof.
  destruct (send (M := demo_models) (D := scripted) (demo_client 1)
              (demo_request "GET" (https_url "a" "/")) false None true
              no_args None [found "b"; found "c"; found "d"; ok_200])
    as [[r st]|] eqn:E; [|vm_compute in E; discriminate E].
  exists r, st. split; [reflexivity|].
  apply (proj1 (send_dispatch_bound _ _ _ _ _ _ _ _ _ _ E)).
Defined.

Lemma merge_headers_precedence_witness :
  Headers_get_list
    (Headers_init
       (merge_headers
          (headers_client [("Accept", "*/*"); ("X-Token", "old")])
          (Some [("x-token", "new"); ("X-TOKEN", "newer")])))
    "X-Token" = ["new, newer"].
Proof.
  rewrite (proj1 (merge_headers_precedence _ _)). reflexivity.
Defined.

Lemma head_does_not_follow_redirects_witness :
  exists r out,
    AsyncClient.head (M := demo_models) (D := scripted)
      (R := demo_request_models) (demo_client 20)
      (URL_obj (https_url "a" "/")) None None None None None None no_args
      None [found "b"; ok_200] = Some (r, out) /\
    (List.length (AsyncClient.out_sent out) <= 1)%nat.
Proof.
  destruct (AsyncClient.head (M := demo_models) (D := scripted)
              (R := demo_request_models) (demo_client 20)
              (URL_obj (https_url "a" "/")) None None None None None None
              no_args None [found "b"; ok_200])
    as [[r out]|] eqn:E; [|vm_compute in E; discriminate E].
  exists r, out. split; [reflexivity|].
  apply (proj1 (head_does_not_follow_redirects (M := demo_models)
                  (D := scripted) (R := demo_request_models) (demo_client 20)
                  (URL_obj (https_url "a" "/")) None None None None None
                  no_args None [found "b"; ok_200]) r out E).
Defined.

Section Resending.

Context {M : Models} {D : Dispatcher}.

Lemma build_redirect_request_not_streaming (c : BaseClient.t)
  (request request' : Request.t) (response : Response.t) :
  build_redirect_request c request response = Ok request' ->
  Request.is_streaming request' = false.
Proof.
  unfold build_redirect_request.
  destruct (redirect_url request response); simpl; [|discriminate].
  destruct (redirect_content _ _ _); simpl; [|discriminate].
  intros [= <-]. reflexivity.
Qed.

Lemma hop_Continue_request (args : TransportArgs) (allow_redirects : bool)
  (st st' : EngineState) :
  hop args allow_redirects st = Continue st' ->
  Request.is_streaming (st_request st') = false.
Proof.
  unfold hop.
  destruct (_ >? _); [discriminate|].
  destruct (existsb _ _); [discriminate|].
  destruct (dispatch_send _ _ _) as [[response|failure] w]; [|discriminate].
  destruct (allow_redirects && _); [|discriminate].
  destruct (build_redirect_request _ _ _) as [request'|e q] eqn:Eb;
    [|discriminate].
  intros [= <-]. simpl.
  eapply build_redirect_request_not_streaming. exact Eb.
Qed.

Lemma reaches_resent (args : TransportArgs) (allow_redirects : bool)
  (st st1 : EngineState) :
  reaches args allow_redirects st st1 ->
  st = st1 \/
  (Request.is_streaming (st_request st1) = false /\
   exists rest,
     st_sent st1 = (st_sent st ++ st_request st :: rest)%list /\
     Forall (fun q => Request.is_streaming q = false) rest).
Proof.
  induction 1 as [st|st st' st'' Hh Hr IH]; [auto|].
  right.
  pose proof (hop_Continue_request _ _ _ _ Hh) as Hns.
  apply hop_Continue_inv in Hh as (_ & _ & _ & _ & Hs).
  destruct IH as [<- | (Hns' & rest & Hsent & Hall)].
  - split; [exact Hns|]. exists []. rewrite Hs. auto.
  - split; [exact Hns'|]. exists (st_request st' :: rest).
    rewrite Hsent, Hs, <- app_assoc. simpl. auto.
Qed.

(** X13. Only the first request that a call hands to the dispatcher can
    be streaming: every request after it was built for a redirect and
    carries bytes, so a streamed body is sent at most once. *)
Theorem streaming_body_sent_once (c : BaseClient.t) (request : Request.t)
  (args : TransportArgs) (allow_redirects : bool)
  (history : option (list Response.t)) (w : World)
  (r : result Response.t) (st : EngineState) :
  send_handling_redirects c request args allow_redirects history w =
  Some (r, st) ->
  st_sent st = [] \/
  exists rest,
    st_sent st = request :: rest /\
    Forall (fun q => Request.is_streaming q = false) rest.
Proof.
  unfold send_handling_redirects. cbv zeta. intros H.
  apply redirect_loop_run in H as (st1 & r0 & st2 & Hr & Hb & Ho).
  pose proof (attach_next_sent r0 st2) as Hs. rewrite <- Ho in Hs.
  simpl in Hs. rewrite Hs.
  apply reaches_resent in Hr.
  assert (Hst2 : st_sent st2 = st_sent st1 \/
                 st_sent st2 = (st_sent st1 ++ [st_request st1])%list).
  { apply hop_Break_inv in Hb
      as [(_ & _ & ->) | [(_ & _ & _ & ->) | (_ & _ & Hsent & _)]]; auto. }
  destruct Hr as [<- | (Hns & rest & Hsent & Hall)]; simpl in *.
  - destruct Hst2 as [-> | ->]; [auto|]. right. exists []. auto.
  - right. destruct Hst2 as [-> | ->]; rewrite Hsent.
    + exists rest. auto.
    + exists (rest ++ [st_request st1])%list. split; [reflexivity|].
      apply Forall_app. auto.
Qed.

End Resending.

Lemma streaming_body_sent_once_witness :
  exists r st rest,
    send_handling_redirects (M := demo_models) (D := scripted)
      (demo_client 5)
      (Request.mk "POST" (https_url "a" "/") [] None true [])
      no_args true None [found "b"; found "c"; ok_200] = Some (r, st) /\
    st_sent st =
    Request.mk "POST" (https_url "a" "/") [] None true [] :: rest /\
    Forall (fun q => Request.is_streaming q = false) rest.
Proof.
  destruct (send_handling_redirects (M := demo_models) (D := scripted)
              (demo_client 5)
              (Request.mk "POST" (https_url "a" "/") [] None true [])
              no_args true None [found "b"; found "c"; ok_200])
    as [[r st]|] eqn:E; [|vm_compute in E; discriminate E].
  destruct (streaming_body_sent_once _ _ _ _ _ _ _ _ E)
    as [Hnone | (rest & Hsent & Hall)].
  - exfalso. vm_compute in E. injection E as _ <-. discriminate Hnone.
  - exists r, st, rest. auto.
Defined.
